(** * modu: an interactive list of out-of-date Go modules

    A shallow embedding of [main.go]: the model struct, the Bubble Tea
    messages and commands, the [Update] transition, the [View] renderer,
    the cursor and viewport reconciliation, and the [load] adapter with its
    comparator, followed by the properties of the specification.

    Go's [int] is taken at 64 bits (amd64/arm64): integers are [Z] and every
    arithmetic operation of the source is written with its wrap-around. *)

From Stdlib Require Import ZArith List String Ascii Bool Lia.
From Stdlib Require Import Sorting.Sorted Sorting.Permutation.
From Stdlib Require Import DecimalString.
Import ListNotations.
Set Warnings "-register-all".
Open Scope list_scope.
Open Scope string_scope.
Open Scope Z_scope.

(** ** Go values *)

Module GoInt.

Definition min_int : Z := -9223372036854775808.
Definition max_int : Z := 9223372036854775807.
Definition modulus : Z := 18446744073709551616.

(** Two's-complement reduction of a mathematical integer to an [int]. *)
Definition wrap (z : Z) : Z := (z - min_int) mod modulus + min_int.

Definition add (x y : Z) : Z := wrap (x + y).
Definition sub (x y : Z) : Z := wrap (x - y).

Definition in_range (z : Z) : Prop := min_int <= z <= max_int.

End GoInt.

(** A slice is [nil] ([None]) or a backing list; [len] of the nil slice is 0. *)
Definition slice (A : Type) : Type := option (list A).

Definition len {A : Type} (s : slice A) : Z :=
  match s with
  | None => 0
  | Some l => Z.of_nat (List.length l)
  end.

(** [s[i]]: [None] stands for the runtime panic "index out of range". *)
Definition index {A : Type} (s : slice A) (i : Z) : option A :=
  match s with
  | None => None
  | Some l => if 0 <=? i then nth_error l (Z.to_nat i) else None
  end.

(** The [error] interface: [None] is [nil]. *)
Definition error : Type := option string.

(** A call either returns or panics (index out of range, nil dereference). *)
Inductive outcome (A : Type) : Type :=
| Ret (a : A)
| Panic (reason : string).
Arguments Ret {A} a.
Arguments Panic {A} reason.

Definition bind {A B : Type} (o : outcome A) (k : A -> outcome B) : outcome B :=
  match o with
  | Ret a => k a
  | Panic r => Panic r
  end.

Notation "x <- c ;; k" := (bind c (fun x => k))
  (at level 61, c at next level, right associativity).

Definition nl : string := String (ascii_of_nat 10) EmptyString.
Definition esc : string := String (ascii_of_nat 27) EmptyString.

(** [%d] of [fmt.Sprintf]. *)
Definition itoa (z : Z) : string := NilZero.string_of_int (Z.to_int z).

(** [strings.Split(s, sep)] for a one-byte separator: the pieces between
    the separators, so a string with k separators gives k+1 pieces. *)
Fixpoint split_on (sep : ascii) (s : string) (cur : string) : list string :=
  match s with
  | EmptyString => [cur]
  | String c rest =>
      if Ascii.eqb c sep then cur :: split_on sep rest EmptyString
      else split_on sep rest (cur ++ String c EmptyString)
  end.

(** ** The packages [main.go] imports *)

(** Modelled from the spec: the spinner package
    (github.com/charmbracelet/bubbles/spinner) is not in src/. Section 4.1:
    a spinner tick advances the animation frame and is purely cosmetic. *)
Module Spinner.

Record Model : Type := mkModel { Frame : Z; ForegroundColor : string }.

Definition frames : list string := ["|"; "/"; "-"; "+"].

Definition NewModel : Model := {| Frame := 0; ForegroundColor := "" |}.

Definition Update (s : Model) : Model :=
  {| Frame := (Frame s + 1) mod Z.of_nat (List.length frames);
     ForegroundColor := ForegroundColor s |}.

Definition View (s : Model) : string :=
  nth (Z.to_nat (Frame s)) frames "|".

End Spinner.

(** Modelled from the spec: the viewport package
    (github.com/charmbracelet/bubbles/viewport) is not in src/. Section 3:
    the viewport state is a top offset and a height over the rendered
    lines. Section 4.3, scrollBy: the offset moves by the given number of
    lines, clamped so the window never scrolls past the content's start or
    leaves fewer than [Height] lines visible; when the content is shorter
    than [Height] the offset stays 0. The content is split at its
    newlines, so the text after the last newline (empty, for the rows
    [content] writes) is a piece of [lines] but no row: the rows number
    one less than [lines], and the last offset is that number less
    [Height] (scenario E: 10 rows in a window of 3 stop at offset 7).
    Section 4.1, render: the body is the window's lines. The window is
    the Go slice lines[top:bottom], whose bounds must not cross, and the
    body is filled with newlines up to [Height]. *)
Module Viewport.

Record Model : Type := mkModel
  { Width : Z; Height : Z; YOffset : Z; lines : list string }.

Definition maxYOffset (v : Model) : Z :=
  Z.max 0
    (GoInt.sub (GoInt.sub (Z.of_nat (List.length (lines v))) 1) (Height v)).

Definition scrollBy (delta : Z) (v : Model) : Model :=
  {| Width := Width v;
     Height := Height v;
     YOffset := Z.max 0 (Z.min (maxYOffset v) (GoInt.add (YOffset v) delta));
     lines := lines v |}.

Definition LineUp (n : Z) (v : Model) : Model := scrollBy (GoInt.sub 0 n) v.
Definition LineDown (n : Z) (v : Model) : Model := scrollBy n v.

Definition SetContent (s : string) (v : Model) : Model :=
  {| Width := Width v;
     Height := Height v;
     YOffset := YOffset v;
     lines := split_on (ascii_of_nat 10) s EmptyString |}.

(** The lines in the window: none without content; otherwise the slice
    from [max 0 YOffset] to [min (len lines) (YOffset + Height)], a panic
    when the first bound is past the second (the offset past the content,
    or a negative height). *)
Definition visibleLines (v : Model) : outcome (list string) :=
  if 0 <? Z.of_nat (List.length (lines v)) then
    let top := Z.max 0 (YOffset v) in
    let bottom :=
      Z.min (Z.of_nat (List.length (lines v)))
            (GoInt.add (YOffset v) (Height v)) in
    if top <=? bottom then
      Ret (firstn (Z.to_nat (bottom - top)) (skipn (Z.to_nat top) (lines v)))
    else Panic "slice bounds out of range"
  else Ret [].

Fixpoint newlines (n : nat) : string :=
  match n with
  | O => EmptyString
  | S n' => String (ascii_of_nat 10) (newlines n')
  end.

Definition View (v : Model) : outcome string :=
  ls <- visibleLines v ;;
  let extraLines :=
    if Z.of_nat (List.length ls) <? Height v
    then newlines (Z.to_nat (Height v - Z.of_nat (List.length ls)))
    else EmptyString in
  Ret (String.concat nl ls ++ extraLines).

End Viewport.
Arguments Viewport.View : simpl never.

(** Modelled from the spec: the termenv package (github.com/muesli/termenv)
    is not in src/. Section 1: colour rendering is an external display
    surface; a profile either styles a string with an ANSI foreground
    sequence or leaves it plain. *)
Module Termenv.

Inductive Profile : Type := Plain | Ansi.

Definition Foreground (p : Profile) (code : string) (s : string) : string :=
  match p with
  | Plain => s
  | Ansi => esc ++ "[3" ++ code ++ "m" ++ s ++ esc ++ "[0m"
  end.

End Termenv.

(** ** main.go: data *)

(** [type module struct]; [Update] is a pointer, [None] when nil. *)
Inductive module : Type :=
| mkModule (Path Version : string) (Update : option module)
           (Main Indirect : bool).

Definition Path (m : module) : string :=
  match m with mkModule p _ _ _ _ => p end.
Definition Version (m : module) : string :=
  match m with mkModule _ v _ _ _ => v end.
Definition module_Update (m : module) : option module :=
  match m with mkModule _ _ u _ _ => u end.
Definition Main (m : module) : bool :=
  match m with mkModule _ _ _ b _ => b end.
Definition Indirect (m : module) : bool :=
  match m with mkModule _ _ _ _ b => b end.

(** [type model struct]; [builder] is the text held by the strings.Builder. *)
Record model : Type := mkModelState
  { spinner : Spinner.Model;
    viewport : Viewport.Model;
    color : Termenv.Profile;
    builder : string;
    ready : bool;
    modules : slice module;
    cursor : Z;
    updating : bool;
    err : error }.

Definition with_spinner (s : Spinner.Model) (m : model) : model :=
  mkModelState s (viewport m) (color m) (builder m) (ready m) (modules m)
    (cursor m) (updating m) (err m).
Definition with_viewport (v : Viewport.Model) (m : model) : model :=
  mkModelState (spinner m) v (color m) (builder m) (ready m) (modules m)
    (cursor m) (updating m) (err m).
Definition with_builder (b : string) (m : model) : model :=
  mkModelState (spinner m) (viewport m) (color m) b (ready m) (modules m)
    (cursor m) (updating m) (err m).
Definition with_ready (r : bool) (m : model) : model :=
  mkModelState (spinner m) (viewport m) (color m) (builder m) r (modules m)
    (cursor m) (updating m) (err m).
Definition with_modules (ms : slice module) (m : model) : model :=
  mkModelState (spinner m) (viewport m) (color m) (builder m) (ready m) ms
    (cursor m) (updating m) (err m).
Definition with_cursor (c : Z) (m : model) : model :=
  mkModelState (spinner m) (viewport m) (color m) (builder m) (ready m)
    (modules m) c (updating m) (err m).
Definition with_updating (u : bool) (m : model) : model :=
  mkModelState (spinner m) (viewport m) (color m) (builder m) (ready m)
    (modules m) (cursor m) u (err m).
Definition with_err (e : error) (m : model) : model :=
  mkModelState (spinner m) (viewport m) (color m) (builder m) (ready m)
    (modules m) (cursor m) (updating m) e.

(** The messages [Update] switches on; [otherMsg] is any message of another
    type, which no case of the switch matches. [KeyMsg] carries
    [msg.String()]. *)
Inductive Msg : Type :=
| errMsg (err : error)
| modulesMsg (modules : slice module)
| updatedMsg (modules : slice module)
| KeyMsg (key : string)
| TickMsg
| WindowSizeMsg (Width Height : Z)
| otherMsg.

(** The commands [Init] and [Update] return, as descriptions of the
    closures: [nilCmd] is the nil command, [loadCmd] and [updateCmd m] are
    the closures built by the functions of these names. *)
Inductive Cmd : Type :=
| nilCmd
| Quit
| spinnerTick
| loadCmd
| updateCmd (m : module)
| Batch (cs : list Cmd).

(** ** main.go: the model's methods *)

(** [newModel]; the colour profile is what [termenv.ColorProfile()] reads
    from the environment. The zero values of the other fields are Go's. *)
Definition newModel (profile : Termenv.Profile) : model :=
  {| spinner :=
       {| Spinner.Frame := Spinner.Frame Spinner.NewModel;
          Spinner.ForegroundColor := "2" |};
     viewport :=
       {| Viewport.Width := 0; Viewport.Height := 0; Viewport.YOffset := 0;
          Viewport.lines := [] |};
     color := profile;
     builder := "";
     ready := false;
     modules := None;
     cursor := 0;
     updating := false;
     err := None |}.

Definition Init (m : model) : Cmd := Batch [spinnerTick; loadCmd].

Definition fixCursor (m : model) : model :=
  if cursor m >? GoInt.sub (len (modules m)) 1 then with_cursor 0 m
  else if cursor m <? 0 then with_cursor (GoInt.sub (len (modules m)) 1) m
  else m.

Definition fixViewport (moveCursor : bool) (m : model) : model :=
  let top := Viewport.YOffset (viewport m) in
  let bottom :=
    GoInt.sub
      (GoInt.add (Viewport.Height (viewport m)) (Viewport.YOffset (viewport m)))
      1 in
  if moveCursor then
    if cursor m <? top then with_cursor top m
    else if cursor m >? bottom then with_cursor bottom m
    else m
  else
    if cursor m <? top then
      with_viewport (Viewport.LineUp (GoInt.sub top (cursor m)) (viewport m)) m
    else if cursor m >? bottom then
      with_viewport
        (Viewport.LineDown (GoInt.sub (cursor m) bottom) (viewport m)) m
    else m.

(** One arm of the key switch: [case k1, k2:]. *)
Definition key_is (key : string) (names : list string) : bool :=
  existsb (String.eqb key) names.

Definition Update (m : model) (msg : Msg) : outcome (model * Cmd) :=
  match msg with
  | errMsg e => Ret (with_err e m, Quit)
  | modulesMsg ms => Ret (with_modules ms m, nilCmd)
  | updatedMsg ms => Ret (with_modules ms (with_updating false m), nilCmd)
  | KeyMsg key =>
      if key_is key ["ctrl+c"; "q"] then Ret (m, Quit)
      else if key_is key ["enter"] then
        if negb (updating m) then
          let m := with_updating true m in
          match index (modules m) (cursor m) with
          | Some md => Ret (m, updateCmd md)
          | None => Panic "index out of range"
          end
        else Ret (m, nilCmd)
      else if key_is key ["down"; "j"] then
        if negb (updating m) then
          let m := with_cursor (GoInt.add (cursor m) 1) m in
          let m := fixCursor m in
          Ret (fixViewport false m, nilCmd)
        else Ret (m, nilCmd)
      else if key_is key ["up"; "k"] then
        if negb (updating m) then
          let m := with_cursor (GoInt.sub (cursor m) 1) m in
          let m := fixCursor m in
          Ret (fixViewport false m, nilCmd)
        else Ret (m, nilCmd)
      else if key_is key ["pgup"; "u"] then
        if negb (updating m) then
          let m := with_viewport (Viewport.LineUp 1 (viewport m)) m in
          Ret (fixViewport true m, nilCmd)
        else Ret (m, nilCmd)
      else if key_is key ["pgdown"; "d"] then
        if negb (updating m) then
          let m := with_viewport (Viewport.LineDown 1 (viewport m)) m in
          Ret (fixViewport true m, nilCmd)
        else Ret (m, nilCmd)
      else Ret (m, nilCmd)
  | TickMsg => Ret (with_spinner (Spinner.Update (spinner m)) m, spinnerTick)
  | WindowSizeMsg w h =>
      if negb (ready m) then
        let m :=
          with_viewport
            {| Viewport.Width := w; Viewport.Height := GoInt.sub h 2;
               Viewport.YOffset := 0; Viewport.lines := [] |} m in
        Ret (with_ready true m, nilCmd)
      else
        let m :=
          with_viewport
            {| Viewport.Width := w;
               Viewport.Height := Viewport.Height (viewport m);
               Viewport.YOffset := Viewport.YOffset (viewport m);
               Viewport.lines := Viewport.lines (viewport m) |} m in
        let m :=
          with_viewport
            {| Viewport.Width := Viewport.Width (viewport m);
               Viewport.Height := GoInt.sub h 2;
               Viewport.YOffset := Viewport.YOffset (viewport m);
               Viewport.lines := Viewport.lines (viewport m) |} m in
        Ret (fixViewport true m, nilCmd)
  | otherMsg => Ret (m, nilCmd)
  end.

(** One row of the list: [fmt.Sprintf("%s %s [%s -> %s] %s\n", ...)]. *)
Definition row (cursor_s path version update indirect : string) : string :=
  cursor_s ++ " " ++ path ++ " [" ++ version ++ " -> " ++ update ++ "] "
    ++ indirect ++ nl.

(** The body of the [for i, module := range m.modules] loop of [content],
    from index [i] on, appending to the builder text [b]; dereferencing a
    nil [module.Update] panics. *)
Fixpoint content_loop (m : model) (i : Z) (ms : list module) (b : string)
  : outcome string :=
  match ms with
  | [] => Ret b
  | md :: rest =>
      let cursor_s :=
        if cursor m =? i then
          if updating m then Spinner.View (spinner m)
          else Termenv.Foreground (color m) "1" ">"
        else " " in
      let indirect := if Indirect md then "// indirect" else "" in
      match module_Update md with
      | None => Panic "nil pointer dereference"
      | Some u =>
          content_loop m (i + 1) rest
            (b ++ row cursor_s (Path md) (Version md) (Version u) indirect)
      end
  end.

(** [content]: the builder's text after the loop is returned, and the
    deferred [Reset] leaves the builder empty. *)
Definition content (m : model) : outcome (string * model) :=
  s <- content_loop m 0 (match modules m with Some l => l | None => [] end)
         (builder m) ;;
  Ret (s, with_builder "" m).

Definition footer : string := "(press 'q' to quit)".

(** [View] has a pointer receiver: it returns the rendered text together
    with the model as the call leaves it. *)
Definition View (m : model) : outcome (string * model) :=
  if negb (ready m) || (match modules m with None => true | Some _ => false end)
  then
    Ret (Spinner.View (spinner m) ++ " Loading..." ++ nl ++ "" ++ nl ++ footer,
         m)
  else if len (modules m) =? 0 then
    Ret ("All modules are up-to-date" ++ nl ++ "" ++ nl ++ footer, m)
  else
    let header :=
      "Press enter to update [" ++ itoa (GoInt.add (cursor m) 1) ++ "/"
        ++ itoa (len (modules m)) ++ "]" in
    r <- content m ;;
    let m := with_viewport (Viewport.SetContent (fst r) (viewport (snd r)))
               (snd r) in
    body <- Viewport.View (viewport m) ;;
    Ret (header ++ nl ++ body ++ nl ++ footer, m).

(** ** main.go: the dependency source *)

(** The comparator handed to [sort.Slice], on the two elements it indexes. *)
Definition less (a b : module) : bool :=
  if Indirect a && negb (Indirect b) then false
  else if negb (Indirect a) && Indirect b then true
  else String.ltb (Path a) (Path b).

(** Modelled from the spec: [sort.Slice] belongs to Go's standard library
    and is not in src/. Section 4.4: [load] sorts the list by the ordering
    rule. The model is the insertion sort driven by the comparator alone
    (the library's own routine on short slices): each element in turn is
    moved left past the elements it is [less] than. *)
Fixpoint insert (lt : module -> module -> bool) (x : module) (l : list module)
  : list module :=
  match l with
  | [] => [x]
  | y :: l' => if lt x y then x :: y :: l' else y :: insert lt x l'
  end.

Definition sort_Slice (lt : module -> module -> bool) (l : list module)
  : list module :=
  fold_left (fun sorted x => insert lt x sorted) l [].

(** What [dec.Decode(&m)] yields for one JSON value of the stream. *)
Inductive decoded : Type :=
| Decoded (m : module)
| DecodeErr (e : string).

(** The outside world as [load] sees it: the error of [cmd.Output()] and
    the values the decoder yields before [io.EOF]. *)
Record go_list : Type := mkGoList
  { output_err : error; output : list decoded }.

(** The decode loop of [load]: the end of the stream is [io.EOF]. *)
Fixpoint decode_loop (stream : list decoded) (acc : list module)
  : list module + string :=
  match stream with
  | [] => inl acc
  | DecodeErr e :: _ => inr e
  | Decoded m :: rest =>
      if negb (Main m) && (match module_Update m with Some _ => true | None => false end)
      then decode_loop rest (acc ++ [m])%list
      else decode_loop rest acc
  end.

Definition load (w : go_list) : slice module * error :=
  match output_err w with
  | Some e => (None, Some e)
  | None =>
      match decode_loop (output w) [] with
      | inr e => (None, Some e)
      | inl ms => (Some (sort_Slice less ms), None)
      end
  end.

(** The closure [loadCmd] returns, run against the outside world. *)
Definition run_loadCmd (w : go_list) : Msg :=
  match load w with
  | (_, Some e) => errMsg (Some e)
  | (ms, None) => modulesMsg ms
  end.

(** The closure [updateCmd m] returns; [go_get] is the outcome of running
    [go get -u] on its last argument. *)
Definition run_updateCmd (m : module) (go_get : string -> error) (w : go_list)
  : outcome Msg :=
  match module_Update m with
  | None => Panic "nil pointer dereference"
  | Some u =>
      match go_get (Path u ++ "@" ++ Version u) with
      | Some e => Ret (errMsg (Some e))
      | None =>
          match load w with
          | (_, Some e) => Ret (errMsg (Some e))
          | (ms, None) => Ret (updatedMsg ms)
          end
      end
  end.

(** ** The program *)

Definition is_Quit (c : Cmd) : bool :=
  match c with Quit => true | _ => false end.

(** Modelled from the spec: the event loop [tea.Program.Start] belongs to
    Bubble Tea and is not in src/. Section 2: events are taken one at a
    time, in order, each is dispatched to [Update], and the view is
    rendered again after every event; sections 4.1 and 7 and scenario D:
    a transition that signals termination ends the loop and no further
    render is requested. The result is the final model, the frames
    rendered, and whether the loop ended by a [Quit]. *)
Fixpoint Start (m : model) (events : list Msg) (shown : list string)
  : outcome (model * list string * bool) :=
  match events with
  | [] => Ret (m, shown, false)
  | msg :: rest =>
      r <- Update m msg ;;
      if is_Quit (snd r) then Ret (fst r, shown, true)
      else
        v <- View (fst r) ;;
        Start (snd v) rest (shown ++ [fst v])%list
  end.

(** How the process ends: [log.Fatalln] prints and exits with status 1. *)
Inductive exit_status : Type :=
| ExitOk
| Fatal (printed : string).

Definition exit_code (s : exit_status) : Z :=
  match s with ExitOk => 0 | Fatal _ => 1 end.

(** [main]: [start_err] is the error [p.Start()] itself returns. *)
Definition main (profile : Termenv.Profile) (start_err : error)
  (events : list Msg) : outcome (list string * exit_status) :=
  let m := newModel profile in
  r <- Start m events [] ;;
  let m := fst (fst r) in
  match start_err with
  | Some e => Ret (snd (fst r), Fatal e)
  | None =>
      match err m with
      | Some e => Ret (snd (fst r), Fatal e)
      | None => Ret (snd (fst r), ExitOk)
      end
  end.

(** ** Runs, predicates and sample inputs used by the properties *)

(** The transition's next state, when it returns. *)
Definition next_state (m : model) (msg : Msg) : option model :=
  match Update m msg with
  | Ret (m', _) => Some m'
  | Panic _ => None
  end.

(** A run of key presses through [Update]. *)
Fixpoint navigate (m : model) (keys : list string) : outcome model :=
  match keys with
  | [] => Ret m
  | k :: rest => r <- Update m (KeyMsg k) ;; navigate (fst r) rest
  end.

Definition is_nav_key (key : string) : bool :=
  key_is key ["down"; "j"; "up"; "k"].

(** The cursor's line is inside the window. *)
Definition visible (m : model) : Prop :=
  Viewport.YOffset (viewport m) <= cursor m
  <= Viewport.YOffset (viewport m) + Viewport.Height (viewport m) - 1.

(** The cursor indexes the module list. *)
Definition cursor_in_list (m : model) : Prop :=
  0 <= cursor m <= len (modules m) - 1.

Definition has_update (md : module) : bool :=
  match module_Update md with Some _ => true | None => false end.

Definition listed (m : model) : list module :=
  match modules m with Some l => l | None => [] end.

Definition sample (path : string) (indirect : bool) : module :=
  mkModule path "v1.0.0" (Some (mkModule path "v1.1.0" None false false))
    false indirect.

(** The listing process reporting the given modules, and nothing else. *)
Definition listing (ms : list module) : go_list :=
  {| output_err := None; output := map Decoded ms |}.

Definition three_modules : list module :=
  [sample "a" false; sample "b" false; sample "c" false].

(** A ready, idle model showing [ms] with the cursor at [c]; the window is
    [h] lines high and nothing has been rendered into it yet. *)
Definition showing (ms : list module) (c h : Z) : model :=
  {| spinner := Spinner.NewModel;
     viewport :=
       {| Viewport.Width := 80; Viewport.Height := h; Viewport.YOffset := 0;
          Viewport.lines := [] |};
     color := Termenv.Plain;
     builder := "";
     ready := true;
     modules := Some ms;
     cursor := c;
     updating := false;
     err := None |}.


Definition two_modules : list module := [sample "a" false; sample "b" false].

(** The model while the update of the last of two modules is under way. *)
Definition updating_last : model := with_updating true (showing two_modules 1 22).

(** A session: the terminal reports its size, the listing arrives, the user
    moves to the last module and applies its update, and the reload then
    lists the one module that is still out of date. *)
Definition session_update_last : list Msg :=
  [WindowSizeMsg 80 24; run_loadCmd (listing two_modules); KeyMsg "down";
   KeyMsg "enter"; updatedMsg (Some [sample "a" false])].


(** The model the event loop holds after the given events, from a fresh
    model on a plain terminal (the fresh model itself if the run panics). *)
Definition after_events (events : list Msg) : model :=
  match Start (newModel Termenv.Plain) events [] with
  | Ret (m, _, _) => m
  | Panic _ => newModel Termenv.Plain
  end.

(** Three modules loaded and rendered in a terminal of 5 lines (a window
    of 3), and two modules in a terminal of 2 lines (a window of 0). *)
Definition rendered_three : model :=
  after_events [WindowSizeMsg 80 5; run_loadCmd (listing three_modules)].
Definition tiny_window : model :=
  after_events [WindowSizeMsg 80 2; run_loadCmd (listing two_modules)].

(** What cursor navigation relies on: no update under way, a non-empty
    list whose rendered lines are in the viewport, a window of at least one
    line, a top offset that is not negative, and sizes that are Go ints. *)
Definition navigable (m : model) : Prop :=
  updating m = false
  /\ 1 <= len (modules m)
  /\ len (modules m) < Z.of_nat (List.length (Viewport.lines (viewport m)))
  /\ Z.of_nat (List.length (Viewport.lines (viewport m))) <= GoInt.max_int
  /\ 1 <= Viewport.Height (viewport m) <= GoInt.max_int
  /\ 0 <= Viewport.YOffset (viewport m)
  /\ Viewport.YOffset (viewport m) + Viewport.Height (viewport m)
     <= GoInt.max_int.


(** The order of the listing. [precedes a b]: the comparator does not put
    [b] before [a]. [path_sorted]: paths in non-decreasing bytewise
    lexicographic order. *)
Definition precedes (a b : module) : Prop := less b a = false.

Definition path_sorted (l : list module) : Prop :=
  StronglySorted (fun a b => String.leb (Path a) (Path b) = true) l.

Definition direct (m : module) : bool := negb (Indirect m).

(** What [go list] reports in scenario B's shape: indirect and direct
    modules interleaved, the main module first, one module up to date. *)
Definition unsorted_listing : go_list :=
  {| output_err := None;
     output :=
       [Decoded (mkModule "example.com/app" "" None true false);
        Decoded (sample "golang.org/x/sys" true);
        Decoded (sample "github.com/b/b" false);
        Decoded (mkModule "github.com/current" "v1.0.0" None false false);
        Decoded (sample "github.com/a/a" true);
        Decoded (sample "github.com/b" false);
        Decoded (sample "github.com/a" false)] |}.


(** A task that failed, with the error it met: the listing of [loadCmd],
    the [go get] of [updateCmd], or the reload that follows it. *)
Inductive failed : outcome Msg -> string -> Prop :=
| listing_failed (w : go_list) (e : string) :
    snd (load w) = Some e -> failed (Ret (run_loadCmd w)) e
| go_get_failed (md u : module) (go_get : string -> error) (w : go_list)
    (e : string) :
    module_Update md = Some u ->
    go_get (Path u ++ "@" ++ Version u) = Some e ->
    failed (run_updateCmd md go_get w) e
| reload_failed (md u : module) (go_get : string -> error) (w : go_list)
    (e : string) :
    module_Update md = Some u ->
    go_get (Path u ++ "@" ++ Version u) = None ->
    snd (load w) = Some e ->
    failed (run_updateCmd md go_get w) e.

(** The listing process exiting with a non-zero status. *)
Definition failing_listing : go_list :=
  {| output_err := Some "exit status 1"; output := [] |}.

(** The messages the runtime delivers to [Update]: the results of the two
    kinds of task, keys, ticks, window sizes, and messages of other types. *)
Inductive delivered : Msg -> Prop :=
| delivered_load (w : go_list) (msg : Msg) :
    run_loadCmd w = msg -> delivered msg
| delivered_update (md : module) (go_get : string -> error) (w : go_list)
    (msg : Msg) :
    run_updateCmd md go_get w = Ret msg -> delivered msg
| delivered_key (key : string) : delivered (KeyMsg key)
| delivered_tick : delivered TickMsg
| delivered_size (w h : Z) : delivered (WindowSizeMsg w h)
| delivered_other : delivered otherMsg.


(** The models a session can hold, with the messages processed so far:
    the fresh model, and what [Update] and [View] return from there. *)
Inductive reachable (profile : Termenv.Profile) : model -> list Msg -> Prop :=
| reach_new : reachable profile (newModel profile) []
| reach_Update (m m' : model) (trace : list Msg) (msg : Msg) (c : Cmd) :
    reachable profile m trace -> delivered msg ->
    Update m msg = Ret (m', c) ->
    reachable profile m' (trace ++ [msg])%list
| reach_View (m m' : model) (trace : list Msg) (s : string) :
    reachable profile m trace -> View m = Ret (s, m') ->
    reachable profile m' trace.

Definition loading_view (m : model) : string :=
  Spinner.View (spinner m) ++ " Loading..." ++ nl ++ "" ++ nl ++ footer.


(** The filter of [load]: [!m.Main && m.Update != nil]. *)
Definition wanted (m : module) : bool := negb (Main m) && has_update m.

(** A listing whose third value does not decode. *)
Definition broken_listing : go_list :=
  {| output_err := None;
     output := [Decoded (sample "a" false); Decoded (sample "b" true);
                DecodeErr "unexpected end of JSON input";
                Decoded (sample "c" false)] |}.

(** The fresh model after an up key pressed while the listing is loading,
    and a model whose cursor a reload has left behind the list. *)
Definition loading_after_up : model :=
  with_cursor (-1) (newModel Termenv.Plain).
Definition stale_cursor : model := showing two_modules 7 22.
(** The render shows the list: the model is ready and the list is not
    empty (a nil list has length 0). *)
Definition shows_list (m : model) : bool :=
  ready m && negb (len (modules m) =? 0).

Definition ten_modules : list module :=
  map (fun p => sample p false)
    ["a"; "b"; "c"; "d"; "e"; "f"; "g"; "h"; "i"; "j"].
Definition rendered_ten : model :=
  after_events [WindowSizeMsg 80 5; run_loadCmd (listing ten_modules)].

(** The messages whose arm of [Update] can reach the viewport's scroll or
    the spinner's update. *)
Definition scrolls_or_ticks (msg : Msg) : bool :=
  match msg with
  | TickMsg => true
  | KeyMsg key =>
      key_is key ["down"; "j"; "up"; "k"; "pgup"; "u"; "pgdown"; "d"]
  | _ => false
  end.

(** * Properties *)

(** ** Integer arithmetic *)


Lemma wrap_small (z : Z) : GoInt.in_range z -> GoInt.wrap z = z.
Proof.
  unfold GoInt.in_range, GoInt.wrap, GoInt.min_int, GoInt.max_int, GoInt.modulus.
  intros Hz. rewrite Z.mod_small; lia.
Qed.

Lemma add_small (x y : Z) : GoInt.in_range (x + y) -> GoInt.add x y = x + y.
Proof. apply wrap_small. Qed.

Lemma sub_small (x y : Z) : GoInt.in_range (x - y) -> GoInt.sub x y = x - y.
Proof. apply wrap_small. Qed.

Lemma len_nonneg {A : Type} (s : slice A) : 0 <= len s.
Proof. destruct s; simpl; lia. Qed.

Lemma len_pred (n : Z) :
  0 <= n <= GoInt.max_int -> GoInt.sub n 1 = n - 1.
Proof.
  intros Hn. apply sub_small.
  unfold GoInt.in_range, GoInt.min_int, GoInt.max_int in *. lia.
Qed.

(** ** Keys *)

Lemma key_is_in (key : string) (names : list string) :
  key_is key names = true -> In key names.
Proof.
  unfold key_is. rewrite existsb_exists.
  intros [x [Hin Heq]]. apply String.eqb_eq in Heq. now subst.
Qed.

(** Splits a goal about a key of a [case] arm into one goal per name. *)
Ltac each_key H :=
  apply key_is_in in H; simpl in H;
  repeat (destruct H as [H | H]; [subst | ]); try contradiction.

(** ** The cursor *)

Lemma fixCursor_cursor (m : model) :
  cursor (fixCursor m) =
    if cursor m >? GoInt.sub (len (modules m)) 1 then 0
    else if cursor m <? 0 then GoInt.sub (len (modules m)) 1
    else cursor m.
Proof.
  unfold fixCursor.
  destruct (cursor m >? _); [reflexivity | ].
  destruct (cursor m <? 0); reflexivity.
Qed.

Lemma fixCursor_frame (m : model) :
  modules (fixCursor m) = modules m
  /\ viewport (fixCursor m) = viewport m
  /\ updating (fixCursor m) = updating m.
Proof.
  unfold fixCursor.
  destruct (cursor m >? _); [now simpl | ].
  destruct (cursor m <? 0); now simpl.
Qed.

Lemma fixCursor_in_list (m : model) :
  1 <= len (modules m) <= GoInt.max_int -> cursor_in_list (fixCursor m).
Proof.
  intros Hn. unfold cursor_in_list.
  destruct (fixCursor_frame m) as [-> _].
  rewrite fixCursor_cursor, len_pred by lia.
  destruct (Z.gtb_spec (cursor m) (len (modules m) - 1)); [lia | ].
  destruct (Z.ltb_spec (cursor m) 0); lia.
Qed.

Lemma fixViewport_false_cursor (m : model) :
  cursor (fixViewport false m) = cursor m
  /\ modules (fixViewport false m) = modules m
  /\ updating (fixViewport false m) = updating m.
Proof.
  unfold fixViewport. cbv zeta.
  destruct (cursor m <? _); [now simpl | ].
  destruct (cursor m >? _); now simpl.
Qed.

(** C3 (the claim as stated fails): with three modules and the cursor at 5
    the clamping operation returns 0, while 5 mod 3 is 2. *)
Lemma fixCursor_is_not_mod :
  cursor (fixCursor (showing three_modules 5 22))
  <> cursor (showing three_modules 5 22)
       mod len (modules (showing three_modules 5 22)).
Proof. vm_compute. discriminate. Qed.

(** C3 (amended): for a non-empty list of length n, [fixCursor] sends a
    cursor above n-1 to 0 and a negative cursor to n-1, and leaves any other
    cursor alone; the result lies in [0, n-1], and it is c mod n for the
    cursors a single step can produce, -1 <= c <= n. *)
Theorem fixCursor_wraps_to_opposite_end (m : model) :
  1 <= len (modules m) <= GoInt.max_int ->
  cursor (fixCursor m) =
    (if cursor m >? len (modules m) - 1 then 0
     else if cursor m <? 0 then len (modules m) - 1
     else cursor m)
  /\ 0 <= cursor (fixCursor m) <= len (modules m) - 1
  /\ (-1 <= cursor m <= len (modules m) ->
      cursor (fixCursor m) = cursor m mod len (modules m)).
Proof.
  intros Hn.
  rewrite fixCursor_cursor, len_pred by lia.
  destruct (Z.gtb_spec (cursor m) (len (modules m) - 1)) as [Hgt | Hle].
  - repeat split; try lia.
    intros Hc. replace (cursor m) with (len (modules m)) by lia.
    now rewrite Z.mod_same by lia.
  - destruct (Z.ltb_spec (cursor m) 0) as [Hneg | Hpos].
    + repeat split; try lia.
      intros Hc. replace (cursor m) with (-1) by lia.
      replace (-1) with (len (modules m) - 1 + (-1) * len (modules m)) by lia.
      rewrite Z.mod_add by lia. rewrite Z.mod_small; lia.
    + repeat split; try lia.
      intros _. rewrite Z.mod_small; lia.
Qed.

Lemma fixCursor_wraps_to_opposite_end_witness :
  1 <= len (modules (showing three_modules 3 22)) <= GoInt.max_int
  /\ 0 <= cursor (fixCursor (showing three_modules 3 22))
       <= len (modules (showing three_modules 3 22)) - 1.
Proof.
  assert (Hn : 1 <= len (modules (showing three_modules 3 22)) <= GoInt.max_int)
    by (vm_compute; split; discriminate).
  split; [exact Hn | ].
  exact (proj1 (proj2 (fixCursor_wraps_to_opposite_end _ Hn))).
Defined.

(** ** The key transitions, arm by arm *)

Lemma Update_enter (m : model) :
  Update m (KeyMsg "enter") =
    if negb (updating m) then
      match index (modules m) (cursor m) with
      | Some md => Ret (with_updating true m, updateCmd md)
      | None => Panic "index out of range"
      end
    else Ret (m, nilCmd).
Proof. reflexivity. Qed.

Lemma Update_down (m : model) (key : string) :
  key_is key ["down"; "j"] = true ->
  Update m (KeyMsg key) =
    if negb (updating m) then
      Ret (fixViewport false
             (fixCursor (with_cursor (GoInt.add (cursor m) 1) m)), nilCmd)
    else Ret (m, nilCmd).
Proof. intros H. each_key H; reflexivity. Qed.

Lemma Update_up (m : model) (key : string) :
  key_is key ["up"; "k"] = true ->
  Update m (KeyMsg key) =
    if negb (updating m) then
      Ret (fixViewport false
             (fixCursor (with_cursor (GoInt.sub (cursor m) 1) m)), nilCmd)
    else Ret (m, nilCmd).
Proof. intros H. each_key H; reflexivity. Qed.

Lemma Update_pgup (m : model) (key : string) :
  key_is key ["pgup"; "u"] = true ->
  Update m (KeyMsg key) =
    if negb (updating m) then
      Ret (fixViewport true
             (with_viewport (Viewport.LineUp 1 (viewport m)) m), nilCmd)
    else Ret (m, nilCmd).
Proof. intros H. each_key H; reflexivity. Qed.

Lemma Update_pgdown (m : model) (key : string) :
  key_is key ["pgdown"; "d"] = true ->
  Update m (KeyMsg key) =
    if negb (updating m) then
      Ret (fixViewport true
             (with_viewport (Viewport.LineDown 1 (viewport m)) m), nilCmd)
    else Ret (m, nilCmd).
Proof. intros H. each_key H; reflexivity. Qed.

(** Pressing enter on an idle model whose cursor indexes the list starts
    the update of the module at the cursor. *)
Lemma enter_starts_update (m : model) (md : module) :
  updating m = false ->
  index (modules m) (cursor m) = Some md ->
  Update m (KeyMsg "enter") = Ret (with_updating true m, updateCmd md).
Proof. intros Hu Hi. rewrite Update_enter, Hu. simpl. now rewrite Hi. Qed.

(** Pressing enter while an update is under way changes nothing. *)
Lemma enter_while_updating (m : model) :
  updating m = true -> Update m (KeyMsg "enter") = Ret (m, nilCmd).
Proof. intros Hu. now rewrite Update_enter, Hu. Qed.

(** C1 (the code at the failing input): on an idle model whose loaded list
    is empty, enter is not a no-op: [m.modules[m.cursor]] is evaluated and
    panics; so does the whole program once an empty listing has arrived. *)
Theorem enter_on_empty_list_panics :
  Update (showing [] 0 22) (KeyMsg "enter") = Panic "index out of range"
  /\ main Termenv.Plain None
       [WindowSizeMsg 80 24; run_loadCmd (listing []); KeyMsg "enter"]
     = Panic "index out of range".
Proof. split; reflexivity. Qed.

(** C2 (the code at the failing input): when the reload after updating the
    last of two modules returns one module, [Update] replaces the list and
    leaves the cursor at 1, outside [0, 0]; the next enter then panics. *)
Theorem reload_leaves_cursor_past_the_end :
  match next_state updating_last (updatedMsg (Some [sample "a" false])) with
  | Some m' =>
      cursor m' = 1 /\ len (modules m') = 1 /\ ~ cursor_in_list m'
      /\ Update m' (KeyMsg "enter") = Panic "index out of range"
  | None => False
  end
  /\ main Termenv.Plain None (session_update_last ++ [KeyMsg "enter"])%list
     = Panic "index out of range".
Proof.
  split; [ | reflexivity].
  simpl. repeat split; try reflexivity.
  unfold cursor_in_list. simpl. lia.
Qed.

(** C7: on a non-empty list, a down key at the last index puts the cursor
    at 0 and an up key at index 0 puts it at the last index (the keys move
    the cursor when no update is under way); with a single module, a down
    key leaves the cursor at 0. *)
Theorem cursor_wraps_at_both_ends (m : model) (key : string) :
  1 <= len (modules m) <= GoInt.max_int ->
  (updating m = false -> key_is key ["down"; "j"] = true ->
   cursor m = len (modules m) - 1 ->
   option_map cursor (next_state m (KeyMsg key)) = Some 0)
  /\ (updating m = false -> key_is key ["up"; "k"] = true ->
      cursor m = 0 ->
      option_map cursor (next_state m (KeyMsg key))
        = Some (len (modules m) - 1))
  /\ (len (modules m) = 1 -> key_is key ["down"; "j"] = true ->
      cursor m = 0 ->
      option_map cursor (next_state m (KeyMsg key)) = Some 0).
Proof.
  intros Hn.
  assert (Hrange : GoInt.in_range (len (modules m)))
    by (unfold GoInt.in_range, GoInt.min_int, GoInt.max_int in *; lia).
  assert (Hdown : key_is key ["down"; "j"] = true ->
                  cursor m = len (modules m) - 1 -> updating m = false ->
                  option_map cursor (next_state m (KeyMsg key)) = Some 0).
  { intros Hk Hc Hu. unfold next_state. rewrite (Update_down _ _ Hk), Hu.
    cbv beta iota delta [negb option_map]. destruct (fixViewport_false_cursor
      (fixCursor (with_cursor (GoInt.add (cursor m) 1) m))) as [-> _].
    rewrite fixCursor_cursor. simpl.
    rewrite add_small by (rewrite Hc; now replace (len (modules m) - 1 + 1)
                                           with (len (modules m)) by lia).
    rewrite len_pred by lia.
    destruct (Z.gtb_spec (cursor m + 1) (len (modules m) - 1)); [reflexivity | lia]. }
  split; [ | split].
  - intros Hu Hk Hc. now apply Hdown.
  - intros Hu Hk Hc. unfold next_state. rewrite (Update_up _ _ Hk), Hu.
    cbv beta iota delta [negb option_map]. destruct (fixViewport_false_cursor
      (fixCursor (with_cursor (GoInt.sub (cursor m) 1) m))) as [-> _].
    rewrite fixCursor_cursor. simpl.
    rewrite Hc. change (GoInt.sub 0 1) with (-1).
    rewrite len_pred by lia.
    destruct (Z.gtb_spec (-1) (len (modules m) - 1)); [lia | reflexivity].
  - intros H1 Hk Hc. destruct (updating m) eqn:Hu.
    + unfold next_state. rewrite (Update_down _ _ Hk), Hu.
      cbv beta iota delta [negb option_map]. now rewrite Hc.
    + apply Hdown; trivial. lia.
Qed.

Lemma cursor_wraps_at_both_ends_witness :
  1 <= len (modules (showing three_modules 2 22)) <= GoInt.max_int
  /\ option_map cursor (next_state (showing three_modules 2 22) (KeyMsg "down"))
     = Some 0.
Proof.
  assert (Hn : 1 <= len (modules (showing three_modules 2 22)) <= GoInt.max_int)
    by (vm_compute; split; discriminate).
  split; [exact Hn | ].
  apply (proj1 (cursor_wraps_at_both_ends (showing three_modules 2 22) "down" Hn));
    reflexivity.
Defined.

(** Removes the wrap-around of the operations whose result is in range. *)
Ltac unwrap :=
  unfold GoInt.add, GoInt.sub;
  repeat match goal with
    | |- context [GoInt.wrap ?z] =>
        rewrite (wrap_small z)
          by (unfold GoInt.in_range, GoInt.min_int, GoInt.max_int in *; lia)
    end.

(** ** Scrolling *)

Lemma fixViewport_true (m : model) :
  fixViewport true m =
    with_cursor
      (if cursor m <? Viewport.YOffset (viewport m)
       then Viewport.YOffset (viewport m)
       else if cursor m >?
                 GoInt.sub (GoInt.add (Viewport.Height (viewport m))
                                      (Viewport.YOffset (viewport m))) 1
            then GoInt.sub (GoInt.add (Viewport.Height (viewport m))
                                      (Viewport.YOffset (viewport m))) 1
            else cursor m)
      m.
Proof.
  unfold fixViewport. cbv zeta.
  destruct (cursor m <? _); [reflexivity | ].
  destruct (cursor m >? _); [reflexivity | ].
  now destruct m.
Qed.

(** The library's scroll by one line moves the offset by at most one line
    and changes neither the height nor the content. *)
Lemma scrollBy_frame (delta : Z) (v : Viewport.Model) :
  Viewport.Height (Viewport.scrollBy delta v) = Viewport.Height v
  /\ Viewport.Width (Viewport.scrollBy delta v) = Viewport.Width v
  /\ Viewport.lines (Viewport.scrollBy delta v) = Viewport.lines v.
Proof. now unfold Viewport.scrollBy. Qed.

(** The last offset is the number of rows (one less than the pieces of
    the content) less the height, and never negative. *)
Lemma maxYOffset_rows (v : Viewport.Model) :
  Z.of_nat (List.length (Viewport.lines v)) <= GoInt.max_int ->
  0 <= Viewport.Height v <= GoInt.max_int ->
  Viewport.maxYOffset v
  = Z.max 0 (Z.of_nat (List.length (Viewport.lines v)) - 1
             - Viewport.Height v).
Proof.
  intros Hl Hh. unfold Viewport.maxYOffset. unfold GoInt.max_int in *.
  unwrap. reflexivity.
Qed.






(** Scenario E: ten modules in a window of three lines; pgdown scrolls one
    line at a time, the cursor following the top of the window, and stops
    at offset 7, where the window shows the last three rows. *)
Lemma scenario_E_stops_at_the_last_window :
  option_map (fun m => (Viewport.YOffset (viewport m), cursor m))
    (match navigate rendered_ten ["pgdown"; "pgdown"; "pgdown"] with
     | Ret m => Some m
     | Panic _ => None
     end) = Some (3, 3)
  /\ option_map (fun m => (Viewport.YOffset (viewport m), cursor m))
       (match navigate rendered_ten
                ["d"; "d"; "d"; "d"; "d"; "d"; "d"; "d"; "d"] with
        | Ret m => Some m
        | Panic _ => None
        end) = Some (7, 7).
Proof. split; reflexivity. Qed.

(** ** Navigation keeps the cursor in the window *)

Lemma fixViewport_false_visible (m : model) :
  navigable m -> 0 <= cursor m <= len (modules m) - 1 ->
  navigable (fixViewport false m) /\ visible (fixViewport false m).
Proof.
  unfold navigable, visible, fixViewport.
  intros (Hu & Hn & Hl & Hlmax & Hh & Hy & Hyh) Hc. cbv zeta.
  unfold GoInt.max_int in *.
  destruct (Z.ltb_spec (cursor m) (Viewport.YOffset (viewport m))) as [Hlt | Hge].
  - unfold Viewport.LineUp, Viewport.scrollBy, Viewport.maxYOffset. simpl.
    unwrap. repeat split; trivial; lia.
  - destruct (Z.gtb_spec (cursor m)
      (GoInt.sub (GoInt.add (Viewport.Height (viewport m))
                            (Viewport.YOffset (viewport m))) 1)) as [Hgt | Hle].
    + revert Hgt.
      unfold Viewport.LineDown, Viewport.scrollBy, Viewport.maxYOffset. simpl.
      unwrap. intros Hgt. unwrap. repeat split; trivial; lia.
    + revert Hle. unwrap. intros Hle. repeat split; trivial; lia.
Qed.

Lemma navigable_ext (m m' : model) :
  updating m' = updating m -> modules m' = modules m ->
  viewport m' = viewport m -> navigable m -> navigable m'.
Proof. unfold navigable. intros -> -> ->. trivial. Qed.

Lemma moved_cursor_visible (m : model) (c : Z) :
  navigable m ->
  navigable (fixViewport false (fixCursor (with_cursor c m)))
  /\ visible (fixViewport false (fixCursor (with_cursor c m))).
Proof.
  intros Hnav.
  destruct (fixCursor_frame (with_cursor c m)) as (Hm & Hv & Hu).
  assert (Hnav' : navigable (fixCursor (with_cursor c m)))
    by (now apply (navigable_ext m)).
  apply fixViewport_false_visible; [exact Hnav' | ].
  apply fixCursor_in_list. simpl.
  unfold navigable in Hnav. lia.
Qed.

Lemma nav_key_cases (key : string) :
  is_nav_key key = true ->
  key_is key ["down"; "j"] = true \/ key_is key ["up"; "k"] = true.
Proof. intros H. unfold is_nav_key in H. each_key H; auto. Qed.

Lemma nav_step (m : model) (key : string) :
  navigable m -> is_nav_key key = true ->
  exists m', Update m (KeyMsg key) = Ret (m', nilCmd)
             /\ navigable m' /\ visible m'.
Proof.
  intros Hnav Hk.
  assert (Hu : updating m = false) by apply Hnav.
  destruct (nav_key_cases _ Hk) as [Hd | Hup].
  - rewrite (Update_down _ _ Hd), Hu. eexists. split; [reflexivity | ].
    now apply moved_cursor_visible.
  - rewrite (Update_up _ _ Hup), Hu. eexists. split; [reflexivity | ].
    now apply moved_cursor_visible.
Qed.

Lemma nav_steps (keys : list string) :
  forall m, navigable m -> visible m -> forallb is_nav_key keys = true ->
  exists m', navigate m keys = Ret m' /\ navigable m' /\ visible m'.
Proof.
  induction keys as [ | k rest IH]; intros m Hnav Hvis Hkeys.
  - exists m. now simpl.
  - simpl in Hkeys. apply andb_prop in Hkeys as [Hk Hrest].
    destruct (nav_step m k Hnav Hk) as (m1 & Hup & Hnav1 & Hvis1).
    destruct (IH m1 Hnav1 Hvis1 Hrest) as (m' & Hrun & Hm').
    exists m'. split; [ | exact Hm'].
    cbn [navigate]. rewrite Hup. exact Hrun.
Qed.

(** C5 (the claim as stated fails): in a terminal of two lines the window
    has height 0; after a down key the window is empty and the cursor is
    not inside it. *)
Lemma cursor_outside_an_empty_window :
  match navigate tiny_window ["down"] with
  | Ret m' => Viewport.Height (viewport m') = 0 /\ ~ visible m'
  | Panic _ => False
  end.
Proof.
  vm_compute. split; [reflexivity | ].
  intros [H1 _]. apply H1. reflexivity.
Qed.

(** C5 (amended): from a model with no update under way, a non-empty list
    rendered into the viewport and a window of at least one line, after any
    non-empty sequence of down/j/up/k key transitions the cursor's line is
    inside the window: topOffset <= cursor <= topOffset + height - 1. *)
Theorem navigation_keeps_cursor_visible (m : model) (keys : list string) :
  navigable m -> keys <> [] -> forallb is_nav_key keys = true ->
  exists m', navigate m keys = Ret m' /\ visible m'.
Proof.
  intros Hnav Hne Hkeys.
  destruct keys as [ | k rest]; [contradiction | ].
  simpl in Hkeys. apply andb_prop in Hkeys as [Hk Hrest].
  destruct (nav_step m k Hnav Hk) as (m1 & Hup & Hnav1 & Hvis1).
  destruct (nav_steps rest m1 Hnav1 Hvis1 Hrest) as (m' & Hrun & _ & Hvis).
  exists m'. split; [ | exact Hvis].
  cbn [navigate]. rewrite Hup. exact Hrun.
Qed.

Lemma navigation_keeps_cursor_visible_witness :
  navigable rendered_three
  /\ exists m', navigate rendered_three ["down"; "j"; "down"; "k"; "up"; "up"]
                = Ret m' /\ visible m'.
Proof.
  assert (Hnav : navigable rendered_three).
  { unfold navigable. repeat split; vm_compute; (reflexivity || discriminate). }
  split; [exact Hnav | ].
  apply (navigation_keeps_cursor_visible rendered_three _ Hnav).
  - discriminate.
  - reflexivity.
Defined.

(** ** The order of the listing *)

Section StringOrder.

Lemma compare_not_Gt_trans (a : string) :
  forall b c, String.compare a b <> Gt -> String.compare b c <> Gt ->
              String.compare a c <> Gt.
Proof.
  induction a as [ | x a IH]; intros [ | y b] [ | z c]; simpl;
    try congruence.
  unfold Ascii.compare.
  destruct (N.compare_spec (N_of_ascii x) (N_of_ascii y)),
           (N.compare_spec (N_of_ascii y) (N_of_ascii z)),
           (N.compare_spec (N_of_ascii x) (N_of_ascii z));
    try congruence; try lia.
  apply IH.
Qed.

Lemma ltb_false_leb (a b : string) :
  String.ltb b a = false <-> String.leb a b = true.
Proof.
  unfold String.ltb, String.leb. rewrite (String.compare_antisym a b).
  destruct (String.compare b a); simpl; split; congruence.
Qed.

Lemma leb_trans (a b c : string) :
  String.leb a b = true -> String.leb b c = true -> String.leb a c = true.
Proof.
  unfold String.leb. intros Hab Hbc.
  pose proof (compare_not_Gt_trans a b c) as H.
  destruct (String.compare a b), (String.compare b c), (String.compare a c);
    try reflexivity; try discriminate; exfalso; apply H; congruence.
Qed.

Lemma ltb_asym (a b : string) :
  String.ltb a b = true -> String.ltb b a = false.
Proof.
  unfold String.ltb. rewrite (String.compare_antisym a b).
  destruct (String.compare b a); simpl; congruence.
Qed.

End StringOrder.

Lemma less_asym (a b : module) : less a b = true -> precedes a b.
Proof.
  unfold precedes, less.
  destruct (Indirect a), (Indirect b); simpl; try congruence.
  all: apply ltb_asym.
Qed.

Lemma precedes_trans (a b c : module) :
  precedes a b -> precedes b c -> precedes a c.
Proof.
  unfold precedes, less.
  destruct (Indirect a), (Indirect b), (Indirect c); simpl; try congruence.
  all: rewrite !ltb_false_leb; apply leb_trans.
Qed.

Lemma precedes_same_group (a b : module) :
  Indirect a = Indirect b -> precedes a b ->
  String.leb (Path a) (Path b) = true.
Proof.
  unfold precedes, less. intros ->.
  destruct (Indirect b); simpl; apply ltb_false_leb.
Qed.

Lemma precedes_indirect (a b : module) :
  Indirect a = true -> precedes a b -> Indirect b = true.
Proof.
  unfold precedes, less. intros ->.
  destruct (Indirect b); simpl; congruence.
Qed.

Lemma Forall_insert (P : module -> Prop) (x : module) (l : list module) :
  P x -> Forall P l -> Forall P (insert less x l).
Proof.
  intros Hx Hl. induction Hl as [ | y l Hy Hl IH]; simpl.
  - auto.
  - destruct (less x y); auto.
Qed.

Lemma insert_sorted (x : module) (l : list module) :
  StronglySorted precedes l -> StronglySorted precedes (insert less x l).
Proof.
  induction 1 as [ | y l Hs IH Hy]; simpl.
  - constructor; [constructor | constructor].
  - destruct (less x y) eqn:Hxy.
    + constructor; [now constructor | ].
      constructor; [now apply less_asym | ].
      eapply Forall_impl; [ | exact Hy].
      intros z Hz. eapply precedes_trans; [ | exact Hz]. now apply less_asym.
    + constructor; [exact IH | ].
      now apply Forall_insert.
Qed.

Lemma insert_permutation (x : module) (l : list module) :
  Permutation (x :: l) (insert less x l).
Proof.
  induction l as [ | y l IH]; simpl.
  - apply Permutation_refl.
  - destruct (less x y); [apply Permutation_refl | ].
    eapply perm_trans; [apply perm_swap | ]. now apply perm_skip.
Qed.

Lemma sort_from_sorted (l : list module) :
  forall acc, StronglySorted precedes acc ->
  StronglySorted precedes (fold_left (fun s x => insert less x s) l acc).
Proof.
  induction l as [ | x l IH]; intros acc Hacc; simpl; [exact Hacc | ].
  apply IH. now apply insert_sorted.
Qed.

Lemma sort_Slice_sorted (l : list module) :
  StronglySorted precedes (sort_Slice less l).
Proof. apply sort_from_sorted. constructor. Qed.

Lemma sort_from_permutation (l : list module) :
  forall acc, Permutation (acc ++ l)%list
                (fold_left (fun s x => insert less x s) l acc).
Proof.
  induction l as [ | x l IH]; intros acc; simpl.
  - rewrite app_nil_r. apply Permutation_refl.
  - eapply perm_trans; [ | apply IH].
    eapply perm_trans; [apply Permutation_sym, Permutation_middle | ].
    apply (Permutation_app_tail l (insert_permutation x acc)).
Qed.

(** The sort loses and invents nothing. *)
Lemma sort_Slice_permutation (l : list module) :
  Permutation l (sort_Slice less l).
Proof. apply (sort_from_permutation l []). Qed.

(** Any list in the comparator's order puts the direct modules first. *)
Lemma sorted_direct_first (l : list module) :
  StronglySorted precedes l ->
  l = (filter direct l ++ filter Indirect l)%list.
Proof.
  induction 1 as [ | x l Hs IH Hx]; simpl; [reflexivity | ].
  unfold direct at 1. destruct (Indirect x) eqn:Hi; simpl.
  - assert (Hall : Forall (fun z => Indirect z = true) l).
    { eapply Forall_impl; [ | exact Hx].
      intros z Hz. now apply (precedes_indirect x). }
    assert (Hd : filter direct l = []).
    { clear -Hall. induction Hall as [ | z l Hz _ IH]; simpl; [reflexivity | ].
      unfold direct at 1. now rewrite Hz. }
    assert (Hin : filter Indirect l = l).
    { clear -Hall. induction Hall as [ | z l Hz _ IH]; simpl; [reflexivity | ].
      now rewrite Hz, IH. }
    now rewrite Hd, Hin.
  - now rewrite <- IH.
Qed.

(** Within one group, the comparator's order is the order of the paths. *)
Lemma sorted_group_paths (f : module -> bool) (g : bool) (l : list module) :
  (forall z, f z = true -> Indirect z = g) ->
  StronglySorted precedes l -> path_sorted (filter f l).
Proof.
  intros Hf. unfold path_sorted.
  induction 1 as [ | x l Hs IH Hx]; simpl; [constructor | ].
  destruct (f x) eqn:Hfx; [ | exact IH].
  constructor; [exact IH | ].
  clear -Hf Hfx Hx. induction Hx as [ | z l Hz _ IH]; simpl; [constructor | ].
  destruct (f z) eqn:Hfz; [ | exact IH].
  constructor; [ | exact IH].
  apply precedes_same_group; [ | exact Hz].
  now rewrite (Hf x Hfx), (Hf z Hfz).
Qed.

Lemma load_ok (w : go_list) (ms : list module) :
  load w = (Some ms, None) ->
  exists kept, decode_loop (output w) [] = inl kept
               /\ ms = sort_Slice less kept.
Proof.
  unfold load. destruct (output_err w); [discriminate | ].
  destruct (decode_loop (output w) []) as [kept | e]; [ | discriminate].
  intros H. exists kept. split; [reflexivity | congruence].
Qed.

(** C4: the list a successful [load] returns places all direct modules
    before all indirect modules, and within each of the two groups the
    paths are in non-decreasing lexicographic order. *)
Theorem load_orders_modules (w : go_list) (ms : list module) :
  load w = (Some ms, None) ->
  ms = (filter direct ms ++ filter Indirect ms)%list
  /\ path_sorted (filter direct ms)
  /\ path_sorted (filter Indirect ms).
Proof.
  intros Hload. destruct (load_ok w ms Hload) as (kept & _ & ->).
  pose proof (sort_Slice_sorted kept) as Hs.
  split; [now apply sorted_direct_first | ].
  split.
  - apply (sorted_group_paths direct false); [ | exact Hs].
    intros z Hz. unfold direct in Hz. now destruct (Indirect z).
  - apply (sorted_group_paths Indirect true); [ | exact Hs]. trivial.
Qed.

Lemma load_orders_modules_witness :
  load unsorted_listing
  = (Some [sample "github.com/a" false; sample "github.com/b" false;
           sample "github.com/b/b" false; sample "github.com/a/a" true;
           sample "golang.org/x/sys" true], None)
  /\ path_sorted
       (filter direct
          [sample "github.com/a" false; sample "github.com/b" false;
           sample "github.com/b/b" false; sample "github.com/a/a" true;
           sample "golang.org/x/sys" true]).
Proof.
  assert (H : load unsorted_listing
    = (Some [sample "github.com/a" false; sample "github.com/b" false;
             sample "github.com/b/b" false; sample "github.com/a/a" true;
             sample "golang.org/x/sys" true], None)) by reflexivity.
  split; [exact H | ].
  exact (proj1 (proj2 (load_orders_modules _ _ H))).
Defined.

(** ** The rendered list is in the viewport after every render *)

Lemma split_on_length_cur (sep : ascii) (s : string) :
  forall cur cur',
  List.length (split_on sep s cur) = List.length (split_on sep s cur').
Proof.
  induction s as [ | c s IH]; intros cur cur'; simpl; [reflexivity | ].
  destruct (Ascii.eqb c sep); simpl; [reflexivity | apply IH].
Qed.

Lemma split_on_length_app (sep : ascii) (a b : string) :
  forall cur,
  (List.length (split_on sep (a ++ b) cur) + 1 =
   List.length (split_on sep a cur)
   + List.length (split_on sep b EmptyString))%nat.
Proof.
  induction a as [ | c a IH]; intros cur; simpl.
  - rewrite (split_on_length_cur sep b cur EmptyString). lia.
  - destruct (Ascii.eqb c sep); simpl; [rewrite <- IH; lia | apply IH].
Qed.

Lemma split_on_length_pos (sep : ascii) (s : string) :
  forall cur, (1 <= List.length (split_on sep s cur))%nat.
Proof.
  induction s as [ | c s IH]; intros cur; simpl; [lia | ].
  destruct (Ascii.eqb c sep); simpl; [lia | apply IH].
Qed.

(** Appending on the left never removes a line. *)
Lemma split_on_length_suffix (sep : ascii) (a b : string) :
  (List.length (split_on sep b EmptyString)
   <= List.length (split_on sep (a ++ b) EmptyString))%nat.
Proof.
  pose proof (split_on_length_app sep a b EmptyString).
  pose proof (split_on_length_pos sep a EmptyString). lia.
Qed.

Lemma row_lines (c p v u i : string) :
  (2 <= List.length (split_on (ascii_of_nat 10) (row c p v u i) EmptyString))%nat.
Proof.
  unfold row.
  repeat (etransitivity; [ | apply split_on_length_suffix]).
  apply Nat.le_refl.
Qed.

(** Every row of [content] ends its line: the loop adds at least one line
    per module to the builder's text. *)
Lemma content_loop_lines (m : model) (l : list module) :
  forall i b s, content_loop m i l b = Ret s ->
  (List.length (split_on (ascii_of_nat 10) b EmptyString) + List.length l
   <= List.length (split_on (ascii_of_nat 10) s EmptyString))%nat.
Proof.
  induction l as [ | md l IH]; intros i b s; cbn [content_loop List.length].
  - intros H. injection H as <-. lia.
  - destruct (module_Update md) as [u | ]; [ | discriminate].
    intros H. apply IH in H.
    match type of H with
    | (List.length (split_on _ (b ++ row ?c ?p ?v ?w ?x) _) + _ <= _)%nat =>
        pose proof (split_on_length_app (ascii_of_nat 10) b (row c p v w x)
                      EmptyString) as Happ;
        pose proof (row_lines c p v w x) as Hrow
    end.
    lia.
Qed.

(** X14: after a render that shows the list, the viewport holds more lines
    than there are modules: the premise of [navigable] about the rendered
    lines holds after every frame. *)
Lemma View_renders_the_list (m m' : model) (s : string) :
  ready m = true -> 1 <= len (modules m) -> View m = Ret (s, m') ->
  len (modules m')
  < Z.of_nat (List.length (Viewport.lines (viewport m'))).
Proof.
  intros Hr Hn. unfold View. rewrite Hr.
  destruct (modules m) as [l | ] eqn:Hm; simpl in Hn; [ | lia].
  simpl. destruct (Z.of_nat (List.length l) =? 0) eqn:Hz; [lia | ].
  unfold content. rewrite Hm.
  destruct (content_loop m 0 l (builder m)) as [s0 | r] eqn:Hs;
    cbn [bind fst snd]; [ | discriminate].
  destruct (Viewport.View _) as [body | r]; cbn [bind]; [ | discriminate].
  intros H. injection H as _ <-.
  cbn [modules viewport with_viewport with_builder Viewport.lines
       Viewport.SetContent].
  rewrite Hm. cbn [len].
  apply content_loop_lines in Hs.
  pose proof (split_on_length_pos (ascii_of_nat 10) (builder m) EmptyString).
  lia.
Qed.

(** ** Rendering *)

Lemma content_loop_returns (m : model) (l : list module) :
  forallb has_update l = true ->
  forall i b, exists s, content_loop m i l b = Ret s.
Proof.
  induction l as [ | md l IH]; intros Hl i b; simpl.
  - now exists b.
  - simpl in Hl. apply andb_prop in Hl as [Hmd Hl].
    unfold has_update in Hmd. destruct (module_Update md); [ | discriminate].
    apply IH, Hl.
Qed.

(** The rendered rows depend on the cursor, the busy flag, the spinner and
    the colour profile only. *)
Lemma content_loop_ext (m1 m2 : model) (l : list module) :
  cursor m1 = cursor m2 -> updating m1 = updating m2 ->
  spinner m1 = spinner m2 -> color m1 = color m2 ->
  forall i b, content_loop m1 i l b = content_loop m2 i l b.
Proof.
  intros Hc Hu Hs Hcol.
  induction l as [ | md l IH]; intros i b; simpl; [reflexivity | ].
  rewrite Hc, Hu, Hs, Hcol.
  destruct (module_Update md); [apply IH | reflexivity].
Qed.

(** C8 (the claim as stated fails): rendering a ready model that shows a
    list stores the rendered rows in the model's viewport, so the state
    after the call differs from the state before it. *)
Lemma View_changes_the_model :
  match View (showing three_modules 0 22) with
  | Ret (_, m') => m' <> showing three_modules 0 22
  | Panic _ => False
  end.
Proof. vm_compute. discriminate. Qed.

Lemma viewport_View_returns (v : Viewport.Model) :
  0 <= Viewport.Height v ->
  0 <= Viewport.YOffset v <= Z.of_nat (List.length (Viewport.lines v)) ->
  Viewport.YOffset v + Viewport.Height v <= GoInt.max_int ->
  exists body, Viewport.View v = Ret body.
Proof.
  intros Hh Hy Hyh. unfold Viewport.View, Viewport.visibleLines.
  destruct (0 <? Z.of_nat (List.length (Viewport.lines v)));
    [ | eexists; reflexivity].
  cbv zeta.
  rewrite add_small
    by (unfold GoInt.in_range, GoInt.min_int, GoInt.max_int in *; lia).
  destruct (Z.leb_spec (Z.max 0 (Viewport.YOffset v))
              (Z.min (Z.of_nat (List.length (Viewport.lines v)))
                     (Viewport.YOffset v + Viewport.Height v)));
    [eexists; reflexivity | lia].
Qed.

(** C8 (amended): on a model whose builder is empty, whose listed modules
    all carry an update and whose window starts inside the list (offset in
    [0, len], height not negative), rendering returns; when it shows the
    list it replaces the viewport's content by the lines of the text
    [content] has just rendered and changes nothing else, and otherwise
    it changes nothing; and rendering again gives the identical output
    and the identical model. *)
Theorem View_changes_only_viewport_content (m : model) :
  builder m = "" -> forallb has_update (listed m) = true ->
  0 <= Viewport.Height (viewport m) ->
  0 <= Viewport.YOffset (viewport m) <= len (modules m) ->
  Viewport.YOffset (viewport m) + Viewport.Height (viewport m)
    <= GoInt.max_int ->
  exists s m',
    View m = Ret (s, m')
    /\ (if shows_list m
        then exists c, content m = Ret (c, m)
                       /\ m' = with_viewport
                                 (Viewport.SetContent c (viewport m)) m
        else m' = m)
    /\ View m' = Ret (s, m').
Proof.
  destruct m as [sp [w h y ls] col b r ms c u e]. simpl.
  intros -> Hup Hh Hy Hyh. unfold View, shows_list, listed in *. simpl in *.
  destruct r; simpl.
  2: { do 2 eexists. split; [reflexivity | ]. split; reflexivity. }
  destruct ms as [l | ]; simpl.
  2: { do 2 eexists. split; [reflexivity | ]. split; reflexivity. }
  destruct (Z.of_nat (Datatypes.length l) =? 0) eqn:Hlen; simpl.
  { do 2 eexists. split; [reflexivity | ]. split; [reflexivity | ].
    simpl. now rewrite Hlen. }
  unfold content. simpl.
  destruct (content_loop_returns
              (mkModelState sp (Viewport.mkModel w h y ls) col "" true
                 (Some l) c u e) l Hup 0 "") as [s Hs].
  rewrite Hs. simpl.
  destruct (viewport_View_returns
              (Viewport.SetContent s (Viewport.mkModel w h y ls)))
    as [body Hbody]; simpl; trivial.
  { apply content_loop_lines in Hs. simpl in Hs. unfold len in Hy. lia. }
  rewrite Hbody. simpl.
  do 2 eexists. split; [reflexivity | ].
  split; [exists s; split; reflexivity | ].
  simpl. rewrite Hlen.
  erewrite content_loop_ext; [rewrite Hs | reflexivity ..].
  simpl.
  match goal with
  | |- context [Viewport.View ?x] =>
      change x with (Viewport.SetContent s (Viewport.mkModel w h y ls))
  end.
  rewrite Hbody. reflexivity.
Qed.

Lemma View_changes_only_viewport_content_witness :
  shows_list (showing three_modules 0 22) = true
  /\ exists s c,
       content (showing three_modules 0 22)
       = Ret (c, showing three_modules 0 22)
       /\ View (showing three_modules 0 22)
          = Ret (s, with_viewport
                      (Viewport.SetContent c
                         (viewport (showing three_modules 0 22)))
                      (showing three_modules 0 22))
       /\ Viewport.lines
            (Viewport.SetContent c (viewport (showing three_modules 0 22)))
          <> Viewport.lines (viewport (showing three_modules 0 22)).
Proof.
  split; [reflexivity | ].
  destruct (View_changes_only_viewport_content (showing three_modules 0 22))
    as (s & m' & Hview & Hm' & _);
    [reflexivity | reflexivity | vm_compute; discriminate
     | vm_compute; split; discriminate | vm_compute; discriminate | ].
  change (shows_list (showing three_modules 0 22)) with true in Hm'.
  destruct Hm' as (c & Hc & ->).
  exists s, c. split; [exact Hc | ]. split; [exact Hview | ].
  vm_compute in Hc. injection Hc as <-. vm_compute. discriminate.
Defined.

(** The first two hypotheses above hold throughout a session: [load]
    keeps only modules that carry an update, and no transition writes the
    builder. *)
Lemma decode_loop_keeps_updates (stream : list decoded) :
  forall acc kept, forallb has_update acc = true ->
  decode_loop stream acc = inl kept -> forallb has_update kept = true.
Proof.
  induction stream as [ | d stream IH]; intros acc kept Hacc; simpl.
  - congruence.
  - destruct d as [m | e]; [ | discriminate].
    destruct (negb (Main m)); simpl; [ | now apply IH].
    destruct (module_Update m) eqn:Hm; [ | now apply IH].
    apply IH. rewrite forallb_app, Hacc. simpl.
    unfold has_update. now rewrite Hm.
Qed.

Lemma load_keeps_updates (w : go_list) (ms : list module) :
  load w = (Some ms, None) -> forallb has_update ms = true.
Proof.
  intros Hload. destruct (load_ok w ms Hload) as (kept & Hk & ->).
  apply (decode_loop_keeps_updates _ [] kept eq_refl) in Hk.
  rewrite forallb_forall in *. intros x Hx. apply Hk.
  eapply Permutation_in; [ | exact Hx].
  apply Permutation_sym, sort_Slice_permutation.
Qed.

Lemma fixCursor_builder (m : model) : builder (fixCursor m) = builder m.
Proof.
  unfold fixCursor. destruct (cursor m >? _); [reflexivity | ].
  destruct (cursor m <? 0); reflexivity.
Qed.

Lemma fixViewport_builder (b : bool) (m : model) :
  builder (fixViewport b m) = builder m.
Proof.
  unfold fixViewport. cbv zeta.
  destruct b; destruct (cursor m <? _); try reflexivity;
    destruct (cursor m >? _); reflexivity.
Qed.

Lemma Update_builder (m : model) (msg : Msg) :
  match Update m msg with
  | Ret (m', _) => builder m' = builder m
  | Panic _ => True
  end.
Proof.
  unfold Update. destruct msg as [e | ms | ms | key | | w h | ];
    try reflexivity.
  - repeat match goal with
      | |- context [if key_is key ?ks then _ else _] =>
          destruct (key_is key ks)
      end;
      try (destruct (negb (updating m)));
      cbv zeta; try (destruct (index _ _));
      rewrite ?fixViewport_builder, ?fixCursor_builder; reflexivity.
  - destruct (negb (ready m)); cbv zeta;
      rewrite ?fixViewport_builder; reflexivity.
Qed.

Lemma View_builder (m m' : model) (s : string) :
  builder m = "" -> View m = Ret (s, m') -> builder m' = "".
Proof.
  intros Hb. unfold View.
  destruct (negb (ready m) || _); [intros H; injection H as _ <-; exact Hb | ].
  destruct (len (modules m) =? 0); [intros H; injection H as _ <-; exact Hb | ].
  unfold content.
  destruct (content_loop m 0 _ (builder m)); cbn [bind fst snd];
    [ | discriminate].
  destruct (Viewport.View _); cbn [bind]; [ | discriminate].
  intros H; injection H as _ <-. reflexivity.
Qed.

(** ** Fatal errors *)

Lemma Start_app (pre rest : list Msg) :
  forall m shown m1 shown1,
  Start m pre shown = Ret (m1, shown1, false) ->
  Start m (pre ++ rest)%list shown = Start m1 rest shown1.
Proof.
  induction pre as [ | msg pre IH]; intros m shown m1 shown1; simpl.
  - intros H. injection H as -> ->. reflexivity.
  - destruct (Update m msg) as [[m2 c] | r]; simpl; [ | discriminate].
    destruct (is_Quit c); [discriminate | ].
    destruct (View m2) as [[s m3] | r]; simpl; [ | discriminate].
    apply IH.
Qed.

Lemma failed_delivers_errMsg (o : outcome Msg) (e : string) :
  failed o e -> o = Ret (errMsg (Some e)).
Proof.
  intros [w e' Hw | md u g w e' Hu Hg | md u g w e' Hu Hg Hw].
  - unfold run_loadCmd. destruct (load w) as [ms er]. simpl in Hw.
    now subst er.
  - unfold run_updateCmd. now rewrite Hu, Hg.
  - unfold run_updateCmd. rewrite Hu, Hg.
    destruct (load w) as [ms er]. simpl in Hw. now subst er.
Qed.

(** C9: a failed load or update task delivers an error message; its
    transition stores the error and returns the quit command; the loop
    ends there, rendering no further frame and processing no further
    event; and [main] then prints an error and exits with a non-zero
    status (the stored error, when [p.Start] itself returned none). *)
Theorem failed_task_is_fatal (o : outcome Msg) (e : string) :
  failed o e ->
  o = Ret (errMsg (Some e))
  /\ (forall m, Update m (errMsg (Some e)) = Ret (with_err (Some e) m, Quit))
  /\ (forall m rest shown,
        Start m (errMsg (Some e) :: rest) shown
        = Ret (with_err (Some e) m, shown, true))
  /\ (forall profile start_err pre rest m shown,
        Start (newModel profile) pre [] = Ret (m, shown, false) ->
        exists printed,
          main profile start_err (pre ++ errMsg (Some e) :: rest)%list
          = Ret (shown, Fatal printed)
          /\ (start_err = None -> printed = e)
          /\ exit_code (Fatal printed) <> 0).
Proof.
  intros Hf. split; [now apply failed_delivers_errMsg | ].
  split; [reflexivity | ]. split; [reflexivity | ].
  intros profile start_err pre rest m shown Hpre.
  unfold main. cbv zeta.
  rewrite (Start_app pre _ _ _ _ _ Hpre).
  cbn [Start Update bind is_Quit snd fst with_err err].
  destruct start_err as [e' | ].
  - exists e'. split; [reflexivity | ]. split; [discriminate | ].
    simpl. discriminate.
  - exists e. split; [reflexivity | ]. split; [reflexivity | ].
    simpl. discriminate.
Qed.

Lemma failed_task_is_fatal_witness :
  failed (Ret (run_loadCmd failing_listing)) "exit status 1"
  /\ main Termenv.Plain None
       [WindowSizeMsg 80 24; run_loadCmd failing_listing; KeyMsg "enter"]
     = Ret ([loading_view (newModel Termenv.Plain)], Fatal "exit status 1").
Proof.
  assert (Hf : failed (Ret (run_loadCmd failing_listing)) "exit status 1")
    by (apply listing_failed; reflexivity).
  split; [exact Hf | ].
  destruct (failed_task_is_fatal _ _ Hf) as (_ & _ & _ & Hmain).
  destruct (Hmain Termenv.Plain None [WindowSizeMsg 80 24] [KeyMsg "enter"]
              _ _ eq_refl) as (printed & Hrun & Hprinted & _).
  rewrite (Hprinted eq_refl) in Hrun. exact Hrun.
Defined.

(** ** The module list before and after the first result *)



Lemma fixCursor_modules (m : model) : modules (fixCursor m) = modules m.
Proof. apply fixCursor_frame. Qed.

Lemma fixViewport_modules (b : bool) (m : model) :
  modules (fixViewport b m) = modules m.
Proof.
  unfold fixViewport. cbv zeta.
  destruct b; destruct (cursor m <? _); try reflexivity;
    destruct (cursor m >? _); reflexivity.
Qed.

(** A transition replaces the list by the one a result carries, and no
    other transition touches it. *)
Lemma Update_modules (m : model) (msg : Msg) :
  match Update m msg with
  | Ret (m', _) =>
      modules m' =
        match msg with
        | modulesMsg ms | updatedMsg ms => ms
        | _ => modules m
        end
  | Panic _ => True
  end.
Proof.
  unfold Update. destruct msg as [e | ms | ms | key | | w h | ];
    try reflexivity.
  - repeat match goal with
      | |- context [if key_is key ?ks then _ else _] =>
          destruct (key_is key ks)
      end;
      try (destruct (negb (updating m)));
      cbv zeta; try (destruct (index _ _));
      rewrite ?fixViewport_modules, ?fixCursor_modules; reflexivity.
  - destruct (negb (ready m)); cbv zeta;
      rewrite ?fixViewport_modules; reflexivity.
Qed.

Lemma View_modules (m : model) :
  match View m with
  | Ret (_, m') => modules m' = modules m
  | Panic _ => True
  end.
Proof.
  unfold View.
  destruct (negb (ready m) || _); [reflexivity | ].
  destruct (len (modules m) =? 0); [reflexivity | ].
  unfold content.
  destruct (content_loop m 0 _ (builder m)); cbn [bind fst snd]; trivial.
  destruct (Viewport.View _); cbn [bind]; trivial.
Qed.




(** * Further properties of main.go *)

(** ** [load]: what is listed, and when it fails *)

Lemma decode_loop_filter (raw : list module) :
  forall acc,
  decode_loop (map Decoded raw) acc = inl (acc ++ filter wanted raw)%list.
Proof.
  induction raw as [ | m raw IH]; intros acc; simpl.
  - now rewrite app_nil_r.
  - unfold wanted, has_update.
    destruct (negb (Main m) && _); simpl; [ | apply IH].
    rewrite IH, <- app_assoc. reflexivity.
Qed.

(** X1: when the listing succeeds and every value decodes, [load] returns
    exactly the decoded modules that are not the main module and carry an
    update, each as often as it was listed, in the comparator's order. *)
Theorem load_lists_the_updatable_modules (w : go_list) (raw : list module) :
  output_err w = None -> output w = map Decoded raw ->
  exists ms, load w = (Some ms, None)
             /\ Permutation (filter wanted raw) ms
             /\ StronglySorted precedes ms.
Proof.
  intros Herr Hout. exists (sort_Slice less (filter wanted raw)).
  split; [ | split].
  - unfold load. now rewrite Herr, Hout, decode_loop_filter.
  - apply sort_Slice_permutation.
  - apply sort_Slice_sorted.
Qed.

Lemma load_lists_the_updatable_modules_witness :
  exists ms,
    load (listing [sample "b" true; mkModule "app" "" None true false;
                   sample "a" false;
                   mkModule "c" "v1.0.0" None false false])
    = (Some ms, None)
    /\ Permutation [sample "b" true; sample "a" false] ms.
Proof.
  destruct (load_lists_the_updatable_modules
              (listing [sample "b" true; mkModule "app" "" None true false;
                        sample "a" false;
                        mkModule "c" "v1.0.0" None false false])
              _ eq_refl eq_refl) as (ms & Hload & Hperm & _).
  exists ms. split; [exact Hload | exact Hperm].
Defined.

Lemma decode_loop_error (raw : list module) (e : string)
  (rest : list decoded) :
  forall acc,
  decode_loop (map Decoded raw ++ DecodeErr e :: rest)%list acc = inr e.
Proof.
  induction raw as [ | m raw IH]; intros acc; simpl; [reflexivity | ].
  destruct (negb (Main m) && _); apply IH.
Qed.

(** X2: [load] fails with the error of the listing command whatever the
    command printed, and otherwise with the first value that does not
    decode, whatever follows it; in both cases the list it returns is
    nil. *)
Theorem load_fails_on_the_first_error (w : go_list) (raw : list module)
  (e : string) (rest : list decoded) :
  (output_err w = Some e -> load w = (None, Some e))
  /\ (output_err w = None ->
      output w = (map Decoded raw ++ DecodeErr e :: rest)%list ->
      load w = (None, Some e)).
Proof.
  split.
  - intros Herr. unfold load. now rewrite Herr.
  - intros Herr Hout. unfold load.
    now rewrite Herr, Hout, decode_loop_error.
Qed.

Lemma load_fails_on_the_first_error_witness :
  load broken_listing = (None, Some "unexpected end of JSON input").
Proof.
  apply (proj2 (load_fails_on_the_first_error broken_listing
                  [sample "a" false; sample "b" true] _
                  [Decoded (sample "c" false)]));
    reflexivity.
Defined.

(** ** The comparator *)

Lemma compare_refl (a : string) : String.compare a a = Eq.
Proof.
  pose proof (String.compare_antisym a a) as H.
  destruct (String.compare a a); simpl in H; congruence.
Qed.

Lemma ltb_trans (a b c : string) :
  String.ltb a b = true -> String.ltb b c = true -> String.ltb a c = true.
Proof.
  intros Hab Hbc.
  assert (Hle : String.leb a c = true).
  { apply (leb_trans a b c); unfold String.leb; unfold String.ltb in *.
    - destruct (String.compare a b); congruence.
    - destruct (String.compare b c); congruence. }
  unfold String.ltb, String.leb in *.
  destruct (String.compare a c) eqn:Hac; try congruence.
  apply String.compare_eq_iff in Hac. subst c.
  rewrite (String.compare_antisym b a) in Hbc.
  destruct (String.compare a b); simpl in *; congruence.
Qed.

(** X3: the function handed to [sort.Slice] is a strict weak ordering, as
    sorting requires: irreflexive, transitive, and with a transitive "not
    less"; and it ties two modules exactly when they agree on [Indirect]
    and on [Path]. *)
Theorem less_is_a_strict_weak_order :
  (forall a, less a a = false)
  /\ (forall a b c, less a b = true -> less b c = true -> less a c = true)
  /\ (forall a b c, less a b = false -> less b c = false -> less a c = false)
  /\ (forall a b, less a b = false /\ less b a = false
                  <-> Indirect a = Indirect b /\ Path a = Path b).
Proof.
  split; [ | split; [ | split]].
  - intros a. unfold less, String.ltb. rewrite compare_refl.
    now destruct (Indirect a).
  - intros a b c. unfold less.
    destruct (Indirect a), (Indirect b), (Indirect c); simpl;
      try congruence; apply ltb_trans.
  - intros a b c Hab Hbc. exact (precedes_trans c b a Hbc Hab).
  - intros a b. unfold less, String.ltb. split.
    + rewrite (String.compare_antisym (Path b) (Path a)).
      destruct (Indirect a), (Indirect b); simpl; try (intros [? ?]; congruence).
      all: destruct (String.compare (Path a) (Path b)) eqn:Hc; simpl;
        try (intros [? ?]; congruence).
      all: apply String.compare_eq_iff in Hc; intros _; now split.
    + intros [-> Hp]. rewrite Hp, compare_refl.
      now destruct (Indirect b).
Qed.

Lemma less_is_a_strict_weak_order_witness :
  less (sample "a" false) (sample "a" true) = true
  /\ less (sample "a" false) (sample "b" true) = true.
Proof.
  split; [reflexivity | ].
  apply (proj1 (proj2 less_is_a_strict_weak_order)
           (sample "a" false) (sample "a" true) (sample "b" true));
    reflexivity.
Defined.

(** ** [Update]: panics, commands and the busy flag *)

Lemma index_None_iff {A : Type} (s : slice A) (i : Z) :
  index s i = None <-> ~ (0 <= i < len s).
Proof.
  destruct s as [l | ]; simpl; [ | split; [lia | trivial]].
  destruct (Z.leb_spec 0 i) as [Hi | Hi].
  - rewrite nth_error_None. lia.
  - split; [lia | trivial].
Qed.

Lemma key_is_enter (key : string) :
  key_is key ["enter"] = true -> key = "enter".
Proof. intros H. now each_key H. Qed.

(** X4: on every message whose arm reaches neither the viewport's scroll
    nor the spinner (task results, error messages, enter, ctrl+c and q,
    keys bound to nothing, window sizes, messages of other types),
    [Update] panics in one situation only: an enter key on a model with no
    update under way whose cursor does not index the module list (a nil
    or empty list included). The index expression of the enter arm is the
    only place where [Update] itself can panic. *)
Theorem Update_panics_only_on_enter (m : model) (msg : Msg) (r : string) :
  scrolls_or_ticks msg = false ->
  (Update m msg = Panic r
   <-> msg = KeyMsg "enter" /\ updating m = false
       /\ ~ (0 <= cursor m < len (modules m))
       /\ r = "index out of range").
Proof.
  intros _. rewrite <- index_None_iff. split.
  - unfold Update. destruct msg as [e | ms | ms | key | | w h | ];
      try discriminate.
    + destruct (key_is key ["ctrl+c"; "q"]); [discriminate | ].
      destruct (key_is key ["enter"]) eqn:Hk.
      * apply key_is_enter in Hk. subst key.
        destruct (updating m); simpl; [discriminate | ].
        destruct (index (modules m) (cursor m)); [discriminate | ].
        intros H. injection H as <-. auto.
      * repeat match goal with
          | |- context [if key_is key ?ks then _ else _] =>
              destruct (key_is key ks)
          end;
          destruct (negb (updating m)); discriminate.
    + destruct (negb (ready m)); discriminate.
  - intros (-> & Hu & Hi & ->). rewrite Update_enter, Hu. simpl.
    now rewrite Hi.
Qed.

Lemma Update_panics_only_on_enter_witness :
  scrolls_or_ticks (KeyMsg "enter") = false
  /\ Update (with_modules (Some two_modules) loading_after_up)
       (KeyMsg "enter")
     = Panic "index out of range".
Proof.
  split; [reflexivity | ].
  apply (proj2 (Update_panics_only_on_enter
                  (with_modules (Some two_modules) loading_after_up)
                  (KeyMsg "enter") "index out of range" eq_refl)).
  repeat split. vm_compute. intros [H _]. now apply H.
Defined.

(** X5: while an update is under way every key leaves the model as it is;
    ctrl+c and q still return the quit command, and no other key returns a
    command. *)
Theorem keys_are_ignored_while_updating (m : model) (key : string) :
  updating m = true ->
  Update m (KeyMsg key)
  = Ret (m, if key_is key ["ctrl+c"; "q"] then Quit else nilCmd).
Proof.
  intros Hu. unfold Update. rewrite Hu. simpl negb. cbv iota.
  repeat match goal with
    | |- context [if key_is key ?ks then _ else _] =>
        destruct (key_is key ks)
    end; reflexivity.
Qed.

Lemma keys_are_ignored_while_updating_witness :
  updating updating_last = true
  /\ Update updating_last (KeyMsg "down") = Ret (updating_last, nilCmd).
Proof.
  split; [reflexivity | ].
  exact (keys_are_ignored_while_updating updating_last "down" eq_refl).
Defined.

Lemma fixCursor_updating (m : model) : updating (fixCursor m) = updating m.
Proof. apply fixCursor_frame. Qed.

Lemma fixViewport_updating (b : bool) (m : model) :
  updating (fixViewport b m) = updating m.
Proof.
  unfold fixViewport. cbv zeta.
  destruct b; destruct (cursor m <? _); try reflexivity;
    destruct (cursor m >? _); reflexivity.
Qed.

Lemma Update_commands (m : model) (msg : Msg) :
  match Update m msg with
  | Ret (m', updateCmd md) =>
      msg = KeyMsg "enter" /\ updating m = false /\ updating m' = true
      /\ index (modules m) (cursor m) = Some md
  | Ret (_, Quit) =>
      (exists e, msg = errMsg e)
      \/ (exists key, msg = KeyMsg key /\ key_is key ["ctrl+c"; "q"] = true)
  | Ret (_, spinnerTick) => msg = TickMsg
  | Ret (_, loadCmd) | Ret (_, Batch _) => False
  | Ret (_, nilCmd) | Panic _ => True
  end.
Proof.
  unfold Update. destruct msg as [e | ms | ms | key | | w h | ];
    try exact I; try reflexivity.
  - left. now exists e.
  - destruct (key_is key ["ctrl+c"; "q"]) eqn:Hq.
    { right. now exists key. }
    destruct (key_is key ["enter"]) eqn:Hk.
    { apply key_is_enter in Hk. subst key.
      destruct (updating m) eqn:Hu; simpl; [exact I | ].
      destruct (index (modules m) (cursor m)) eqn:Hi; [ | exact I].
      auto. }
    repeat match goal with
      | |- context [if key_is key ?ks then _ else _] =>
          destruct (key_is key ks)
      end;
      destruct (negb (updating m)); exact I.
  - destruct (negb (ready m)); exact I.
Qed.

(** X6: the only command that starts work is the update of the module at
    the cursor, returned for an enter key on a model with no update under
    way, which the same transition marks as updating; [Update] never
    returns the load command or a batch; it returns the quit command only
    for an error message or the keys ctrl+c and q, and the tick command
    only for a tick. *)
Theorem Update_returns_these_commands (m m' : model) (msg : Msg) (c : Cmd) :
  Update m msg = Ret (m', c) ->
  match c with
  | updateCmd md =>
      msg = KeyMsg "enter" /\ updating m = false /\ updating m' = true
      /\ index (modules m) (cursor m) = Some md
  | Quit =>
      (exists e, msg = errMsg e)
      \/ (exists key, msg = KeyMsg key /\ key_is key ["ctrl+c"; "q"] = true)
  | spinnerTick => msg = TickMsg
  | loadCmd | Batch _ => False
  | nilCmd => True
  end.
Proof.
  intros H. pose proof (Update_commands m msg) as Hc. rewrite H in Hc.
  destruct c; exact Hc.
Qed.

Lemma Update_returns_these_commands_witness :
  Update (showing two_modules 1 22) (KeyMsg "enter")
  = Ret (with_updating true (showing two_modules 1 22),
         updateCmd (sample "b" false))
  /\ index (modules (showing two_modules 1 22))
           (cursor (showing two_modules 1 22))
     = Some (sample "b" false).
Proof.
  assert (H : Update (showing two_modules 1 22) (KeyMsg "enter")
              = Ret (with_updating true (showing two_modules 1 22),
                     updateCmd (sample "b" false))) by reflexivity.
  split; [exact H | ].
  exact (proj2 (proj2 (proj2 (Update_returns_these_commands _ _ _ _ H)))).
Defined.

Lemma Update_updating (m : model) (msg : Msg) :
  match Update m msg with
  | Ret (m', _) =>
      updating m' =
        match msg with
        | updatedMsg _ => false
        | KeyMsg key => updating m || key_is key ["enter"]
        | _ => updating m
        end
  | Panic _ => True
  end.
Proof.
  unfold Update. destruct msg as [e | ms | ms | key | | w h | ];
    try reflexivity.
  - destruct (key_is key ["ctrl+c"; "q"]) eqn:Hq.
    { each_key Hq; simpl; now rewrite orb_false_r. }
    destruct (key_is key ["enter"]) eqn:Hk.
    { destruct (updating m) eqn:Hu; simpl; [exact Hu | ].
      now destruct (index _ _). }
    rewrite orb_false_r.
    repeat match goal with
      | |- context [if key_is key ?ks then _ else _] =>
          destruct (key_is key ks)
      end;
      try (destruct (negb (updating m)));
      cbv zeta; rewrite ?fixViewport_updating, ?fixCursor_updating;
      reflexivity.
  - destruct (negb (ready m)); cbv zeta;
      rewrite ?fixViewport_updating; reflexivity.
Qed.

(** X7: the busy flag changes in two transitions only: an enter key sets
    it, and a successful update result clears it; a first listing, an
    error message, a tick, a resize and every other key leave it as it
    is. *)
Theorem updating_is_set_by_enter_and_cleared_by_the_result
  (m m' : model) (msg : Msg) (c : Cmd) :
  Update m msg = Ret (m', c) ->
  updating m' =
    match msg with
    | updatedMsg _ => false
    | KeyMsg key => updating m || key_is key ["enter"]
    | _ => updating m
    end.
Proof.
  intros H. pose proof (Update_updating m msg) as Hu. now rewrite H in Hu.
Qed.

Lemma updating_is_set_by_enter_and_cleared_by_the_result_witness :
  Update updating_last (modulesMsg (Some two_modules))
  = Ret (with_modules (Some two_modules) updating_last, nilCmd)
  /\ updating (with_modules (Some two_modules) updating_last) = true.
Proof.
  assert (H : Update updating_last (modulesMsg (Some two_modules))
              = Ret (with_modules (Some two_modules) updating_last, nilCmd))
    by reflexivity.
  split; [exact H | ].
  exact (updating_is_set_by_enter_and_cleared_by_the_result _ _ _ _ H).
Defined.

(** ** The cursor after a key or a resize *)

(** X8: on a model with no update under way and a non-empty list, a
    down/j/up/k key leaves the cursor inside the list wherever it was
    before, also when a reload had left it behind the end. *)
Theorem nav_key_puts_cursor_in_list (m : model) (key : string) :
  updating m = false -> is_nav_key key = true ->
  1 <= len (modules m) <= GoInt.max_int ->
  exists m', Update m (KeyMsg key) = Ret (m', nilCmd) /\ cursor_in_list m'.
Proof.
  intros Hu Hk Hn.
  assert (Hfix : forall c,
            cursor_in_list (fixViewport false (fixCursor (with_cursor c m)))).
  { intros c. unfold cursor_in_list.
    destruct (fixViewport_false_cursor (fixCursor (with_cursor c m)))
      as (-> & -> & _).
    now apply fixCursor_in_list. }
  destruct (nav_key_cases _ Hk) as [Hd | Hup].
  - rewrite (Update_down _ _ Hd), Hu. eexists. split; [reflexivity | apply Hfix].
  - rewrite (Update_up _ _ Hup), Hu. eexists. split; [reflexivity | apply Hfix].
Qed.

Lemma nav_key_puts_cursor_in_list_witness :
  ~ cursor_in_list stale_cursor
  /\ exists m', Update stale_cursor (KeyMsg "up") = Ret (m', nilCmd)
                /\ cursor_in_list m'.
Proof.
  split.
  - unfold cursor_in_list. vm_compute. intros [_ H]. now apply H.
  - apply (nav_key_puts_cursor_in_list stale_cursor "up");
      [reflexivity | reflexivity | vm_compute; split; discriminate].
Defined.

(** X9: on a model with no update under way whose list is nil or empty, a
    down key puts a cursor that is not negative at 0 and an up key puts a
    cursor that is not positive at -1: the up key leaves an index no list
    has. *)
Theorem nav_keys_without_a_list (m : model) (key : string) :
  updating m = false -> len (modules m) = 0 ->
  (key_is key ["down"; "j"] = true -> 0 <= cursor m < GoInt.max_int ->
   option_map cursor (next_state m (KeyMsg key)) = Some 0)
  /\ (key_is key ["up"; "k"] = true -> GoInt.min_int < cursor m <= 0 ->
      option_map cursor (next_state m (KeyMsg key)) = Some (-1)).
Proof.
  intros Hu Hn. split; intros Hk Hc; unfold next_state.
  - rewrite (Update_down _ _ Hk), Hu. cbv beta iota delta [negb option_map].
    destruct (fixViewport_false_cursor
      (fixCursor (with_cursor (GoInt.add (cursor m) 1) m))) as [-> _].
    rewrite fixCursor_cursor. simpl. rewrite Hn.
    change (GoInt.sub 0 1) with (-1).
    rewrite add_small
      by (unfold GoInt.in_range, GoInt.min_int, GoInt.max_int in *; lia).
    destruct (Z.gtb_spec (cursor m + 1) (-1)); [reflexivity | lia].
  - rewrite (Update_up _ _ Hk), Hu. cbv beta iota delta [negb option_map].
    destruct (fixViewport_false_cursor
      (fixCursor (with_cursor (GoInt.sub (cursor m) 1) m))) as [-> _].
    rewrite fixCursor_cursor. simpl. rewrite Hn.
    change (GoInt.sub 0 1) with (-1).
    rewrite sub_small
      by (unfold GoInt.in_range, GoInt.min_int, GoInt.max_int in *; lia).
    destruct (Z.gtb_spec (cursor m - 1) (-1)); [lia | ].
    destruct (Z.ltb_spec (cursor m - 1) 0); [reflexivity | lia].
Qed.

Lemma nav_keys_without_a_list_witness :
  option_map cursor (next_state (newModel Termenv.Plain) (KeyMsg "k"))
  = Some (-1)
  /\ Update loading_after_up (modulesMsg (Some two_modules))
     = Ret (with_modules (Some two_modules) loading_after_up, nilCmd)
  /\ Update (with_modules (Some two_modules) loading_after_up)
       (KeyMsg "enter")
     = Panic "index out of range".
Proof.
  split; [ | split; reflexivity].
  apply (proj2 (nav_keys_without_a_list (newModel Termenv.Plain) "k"
                  eq_refl eq_refl));
    [reflexivity | vm_compute; split; [reflexivity | discriminate]].
Defined.

Lemma fixViewport_true_visible (m : model) :
  1 <= Viewport.Height (viewport m) ->
  GoInt.min_int <= Viewport.YOffset (viewport m) ->
  Viewport.YOffset (viewport m) + Viewport.Height (viewport m)
    <= GoInt.max_int ->
  visible (fixViewport true m)
  /\ viewport (fixViewport true m) = viewport m.
Proof.
  intros Hh Hy Hyh. rewrite fixViewport_true. unfold visible. simpl.
  unfold GoInt.min_int, GoInt.max_int in *.
  split; [ | reflexivity].
  destruct (Z.ltb_spec (cursor m) (Viewport.YOffset (viewport m))); [lia | ].
  destruct (Z.gtb_spec (cursor m)
    (GoInt.sub (GoInt.add (Viewport.Height (viewport m))
                          (Viewport.YOffset (viewport m))) 1)) as [Hgt | Hle];
    [unwrap; lia | revert Hle; unwrap; lia].
Qed.

(** X10: on a ready model, a resize to a terminal of at least three lines
    sets the viewport height to two less than the terminal's and the width
    to the terminal's, keeps the top offset and the content, and moves
    the cursor only if it is outside the new window, to the nearest line
    of it: a cursor above the top offset goes to the top offset, a cursor
    below the last line of the window goes to that line, and a cursor
    inside stays; afterwards the cursor is inside the window. *)
Theorem resize_keeps_cursor_in_window (m : model) (w h : Z) :
  ready m = true -> 3 <= h <= GoInt.max_int ->
  GoInt.min_int <= Viewport.YOffset (viewport m) ->
  Viewport.YOffset (viewport m) + (h - 2) <= GoInt.max_int ->
  exists m',
    Update m (WindowSizeMsg w h) = Ret (m', nilCmd)
    /\ viewport m'
       = {| Viewport.Width := w;
            Viewport.Height := h - 2;
            Viewport.YOffset := Viewport.YOffset (viewport m);
            Viewport.lines := Viewport.lines (viewport m) |}
    /\ cursor m'
       = (if cursor m <? Viewport.YOffset (viewport m)
          then Viewport.YOffset (viewport m)
          else if cursor m >? Viewport.YOffset (viewport m) + (h - 2) - 1
               then Viewport.YOffset (viewport m) + (h - 2) - 1
               else cursor m)
    /\ visible m'.
Proof.
  intros Hr Hh Hy Hyh. unfold Update. rewrite Hr. cbv zeta. simpl negb.
  cbv iota. eexists. split; [reflexivity | ].
  assert (Hsub : GoInt.sub h 2 = h - 2)
    by (apply sub_small;
        unfold GoInt.in_range, GoInt.min_int, GoInt.max_int in *; lia).
  match goal with
  | |- context [fixViewport true ?x] =>
      destruct (fixViewport_true_visible x) as [Hvis Hv];
        [ | | | split; [ | split; [ | exact Hvis]]]
  end.
  - simpl. rewrite Hsub. lia.
  - exact Hy.
  - simpl. rewrite Hsub. exact Hyh.
  - rewrite Hv. simpl. now rewrite Hsub.
  - rewrite fixViewport_true. simpl. rewrite Hsub.
    replace (GoInt.sub (GoInt.add (h - 2) (Viewport.YOffset (viewport m))) 1)
      with (Viewport.YOffset (viewport m) + (h - 2) - 1); [reflexivity | ].
    unfold GoInt.min_int, GoInt.max_int in *. unwrap. lia.
Qed.

Lemma resize_keeps_cursor_in_window_witness :
  exists m',
    Update stale_cursor (WindowSizeMsg 100 6) = Ret (m', nilCmd)
    /\ cursor stale_cursor = 7 /\ cursor m' = 3 /\ visible m'.
Proof.
  destruct (resize_keeps_cursor_in_window stale_cursor 100 6)
    as (m' & Hup & _ & Hc & Hvis);
    [reflexivity | vm_compute; split; discriminate | vm_compute; discriminate
     | vm_compute; discriminate | ].
  exists m'. split; [exact Hup | ]. split; [reflexivity | ].
  split; [ | exact Hvis]. rewrite Hc. reflexivity.
Defined.

Lemma page_key_cases (key : string) :
  key_is key ["pgup"; "u"; "pgdown"; "d"] = true ->
  key_is key ["pgup"; "u"] = true \/ key_is key ["pgdown"; "d"] = true.
Proof. intros H. each_key H; auto. Qed.

Lemma scrolled_window_in_range (delta : Z) (v : Viewport.Model) :
  1 <= Viewport.Height v <= GoInt.max_int ->
  Z.of_nat (List.length (Viewport.lines v)) <= GoInt.max_int ->
  0 <= Viewport.YOffset (Viewport.scrollBy delta v)
  /\ Viewport.YOffset (Viewport.scrollBy delta v) + Viewport.Height v
     <= GoInt.max_int.
Proof.
  intros Hh Hl. unfold Viewport.scrollBy, Viewport.maxYOffset.
  cbn [Viewport.YOffset Viewport.Height Viewport.lines].
  generalize (GoInt.add (Viewport.YOffset v) delta). intros y.
  unwrap. unfold GoInt.max_int in *. lia.
Qed.

(** X11: on a model with no update under way and a window of at least one
    line, after a pgup/u/pgdown/d key the cursor is inside the window,
    wherever it was before: the scroll is followed by the cursor. *)
Theorem page_key_keeps_cursor_in_window (m : model) (key : string) :
  updating m = false -> key_is key ["pgup"; "u"; "pgdown"; "d"] = true ->
  1 <= Viewport.Height (viewport m) <= GoInt.max_int ->
  Z.of_nat (List.length (Viewport.lines (viewport m))) <= GoInt.max_int ->
  exists m', Update m (KeyMsg key) = Ret (m', nilCmd) /\ visible m'.
Proof.
  intros Hu Hk Hh Hl.
  assert (Hscroll : forall delta,
            visible (fixViewport true
                       (with_viewport (Viewport.scrollBy delta (viewport m)) m))).
  { intros delta.
    destruct (scrolled_window_in_range delta (viewport m) Hh Hl) as [H0 Hmax].
    apply fixViewport_true_visible;
      change (viewport (with_viewport
                (Viewport.scrollBy delta (viewport m)) m))
        with (Viewport.scrollBy delta (viewport m));
      rewrite ?(proj1 (scrollBy_frame delta (viewport m)));
      [apply Hh | | exact Hmax].
    unfold GoInt.min_int. revert H0.
    generalize (Viewport.YOffset (Viewport.scrollBy delta (viewport m))).
    intros y Hy. lia. }
  destruct (page_key_cases _ Hk) as [Hup | Hdown].
  - rewrite (Update_pgup _ _ Hup), Hu. eexists. split; [reflexivity | ].
    unfold Viewport.LineUp. apply Hscroll.
  - rewrite (Update_pgdown _ _ Hdown), Hu. eexists. split; [reflexivity | ].
    unfold Viewport.LineDown. apply Hscroll.
Qed.

Lemma page_key_keeps_cursor_in_window_witness :
  ~ visible (with_cursor 5 rendered_three)
  /\ exists m', Update (with_cursor 5 rendered_three) (KeyMsg "u")
                = Ret (m', nilCmd) /\ visible m'.
Proof.
  split.
  - unfold visible. vm_compute. intros [_ H]. now apply H.
  - apply (page_key_keeps_cursor_in_window (with_cursor 5 rendered_three) "u");
      [reflexivity | reflexivity | vm_compute; split; discriminate
       | vm_compute; discriminate].
Defined.

(** ** Rendering during a session *)

Lemma decode_loop_keeps_wanted (stream : list decoded) :
  forall acc kept, forallb wanted acc = true ->
  decode_loop stream acc = inl kept -> forallb wanted kept = true.
Proof.
  induction stream as [ | d stream IH]; intros acc kept Hacc; simpl.
  - congruence.
  - destruct d as [m | e]; [ | discriminate].
    change (negb (Main m) && _) with (wanted m).
    destruct (wanted m) eqn:Hw; [ | now apply IH].
    apply IH. rewrite forallb_app, Hacc. simpl. now rewrite Hw.
Qed.

Lemma load_keeps_wanted (w : go_list) (ms : list module) :
  load w = (Some ms, None) -> forallb wanted ms = true.
Proof.
  intros Hload. destruct (load_ok w ms Hload) as (kept & Hk & ->).
  apply (decode_loop_keeps_wanted _ [] kept eq_refl) in Hk.
  rewrite forallb_forall in *. intros x Hx. apply Hk.
  eapply Permutation_in; [ | exact Hx].
  apply Permutation_sym, sort_Slice_permutation.
Qed.

Lemma delivered_result_wanted (msg : Msg) :
  delivered msg ->
  match msg with
  | modulesMsg ms | updatedMsg ms =>
      forallb wanted (match ms with Some l => l | None => [] end) = true
  | _ => True
  end.
Proof.
  intros [w msg' H | md g w msg' H | key | | w h | ]; trivial.
  - unfold run_loadCmd in H. destruct (load w) as [[l | ] [e | ]] eqn:Hl;
      subst msg'; trivial.
    now apply (load_keeps_wanted w).
  - unfold run_updateCmd in H.
    destruct (module_Update md); [ | discriminate].
    destruct (g _); [injection H as <-; trivial | ].
    destruct (load w) as [[l | ] [e | ]] eqn:Hl; injection H as <-; trivial.
    now apply (load_keeps_wanted w).
Qed.

(** X12: throughout a session (the fresh model, then any messages the
    tasks and the runtime deliver, with renders in between) the builder is
    empty between calls, and every module of the model's list is a module
    other than the main one with a non-nil [Update]: the
    [module.Update.Version] of [content] and the [m.Update.Path] of
    [updateCmd] never meet a nil pointer on a listed module. *)
Theorem session_lists_only_updatable_modules (profile : Termenv.Profile)
  (m : model) (trace : list Msg) :
  reachable profile m trace ->
  builder m = ""
  /\ (forall md, In md (listed m) ->
                 Main md = false /\ module_Update md <> None).
Proof.
  intros Hr.
  assert (Hinv : builder m = "" /\ forallb wanted (listed m) = true).
  { induction Hr as [ | m m' trace msg c Hr [IHb IHu] Hd Hup
                      | m m' trace s Hr [IHb IHu] Hv].
    - split; reflexivity.
    - pose proof (Update_builder m msg) as Hb. rewrite Hup in Hb.
      pose proof (Update_modules m msg) as Hm. rewrite Hup in Hm.
      pose proof (delivered_result_wanted msg Hd) as Hd'.
      split; [congruence | ].
      unfold listed in *. rewrite Hm. destruct msg; assumption.
    - pose proof (View_modules m) as Hm. rewrite Hv in Hm.
      split; [now apply (View_builder m m' s) | ].
      unfold listed in *. now rewrite Hm. }
  destruct Hinv as [Hb Hw]. split; [exact Hb | ].
  intros md Hin. rewrite forallb_forall in Hw. specialize (Hw md Hin).
  unfold wanted, has_update in Hw. apply andb_prop in Hw as [Hmain Hupd].
  split.
  - now destruct (Main md).
  - destruct (module_Update md); [discriminate | discriminate].
Qed.

Lemma session_lists_only_updatable_modules_witness :
  reachable Termenv.Plain
    (with_modules (Some [sample "a" false]) (newModel Termenv.Plain))
    [run_loadCmd (listing [sample "a" false;
                           mkModule "b" "v1.0.0" None false false;
                           mkModule "app" "" None true false])]
  /\ module_Update (sample "a" false) <> None.
Proof.
  assert (Hr : reachable Termenv.Plain
                 (with_modules (Some [sample "a" false])
                    (newModel Termenv.Plain))
                 [run_loadCmd (listing [sample "a" false;
                                mkModule "b" "v1.0.0" None false false;
                                mkModule "app" "" None true false])]).
  { apply (reach_Update _ (newModel Termenv.Plain) _ [] _ nilCmd).
    - apply reach_new.
    - apply (delivered_load
               (listing [sample "a" false;
                         mkModule "b" "v1.0.0" None false false;
                         mkModule "app" "" None true false])).
      reflexivity.
    - reflexivity. }
  split; [exact Hr | ].
  apply (proj2 (session_lists_only_updatable_modules _ _ _ Hr)
           (sample "a" false)).
  left. reflexivity.
Defined.

Lemma View_renders_the_list_witness :
  ready (showing three_modules 0 22) = true
  /\ 1 <= len (modules (showing three_modules 0 22))
  /\ exists s m',
       View (showing three_modules 0 22) = Ret (s, m')
       /\ len (modules m')
          < Z.of_nat (List.length (Viewport.lines (viewport m'))).
Proof.
  split; [reflexivity | ]. split; [vm_compute; discriminate | ].
  destruct (View (showing three_modules 0 22)) as [[s m'] | r] eqn:Hv;
    [ | vm_compute in Hv; discriminate].
  exists s, m'. split; [reflexivity | ].
  apply (View_renders_the_list (showing three_modules 0 22) m' s);
    [reflexivity | vm_compute; discriminate | exact Hv].
Defined.

(** ** How the process ends *)

Lemma Update_quit (m : model) (key : string) :
  key_is key ["ctrl+c"; "q"] = true -> Update m (KeyMsg key) = Ret (m, Quit).
Proof. intros H. each_key H; reflexivity. Qed.

Lemma fixCursor_err (m : model) : err (fixCursor m) = err m.
Proof.
  unfold fixCursor. destruct (cursor m >? _); [reflexivity | ].
  destruct (cursor m <? 0); reflexivity.
Qed.

Lemma fixViewport_err (b : bool) (m : model) :
  err (fixViewport b m) = err m.
Proof.
  unfold fixViewport. cbv zeta.
  destruct b; destruct (cursor m <? _); try reflexivity;
    destruct (cursor m >? _); reflexivity.
Qed.

(** Only an error message stores an error. *)
Lemma Update_err (m : model) (msg : Msg) :
  match Update m msg with
  | Ret (m', _) =>
      err m' = match msg with errMsg e => e | _ => err m end
  | Panic _ => True
  end.
Proof.
  unfold Update. destruct msg as [e | ms | ms | key | | w h | ];
    try reflexivity.
  - repeat match goal with
      | |- context [if key_is key ?ks then _ else _] =>
          destruct (key_is key ks)
      end;
      try (destruct (negb (updating m)));
      cbv zeta; try (destruct (index _ _));
      rewrite ?fixViewport_err, ?fixCursor_err; reflexivity.
  - destruct (negb (ready m)); cbv zeta;
      rewrite ?fixViewport_err; reflexivity.
Qed.

Lemma View_err (m : model) :
  match View m with
  | Ret (_, m') => err m' = err m
  | Panic _ => True
  end.
Proof.
  unfold View.
  destruct (negb (ready m) || _); [reflexivity | ].
  destruct (len (modules m) =? 0); [reflexivity | ].
  unfold content.
  destruct (content_loop m 0 _ (builder m)); cbn [bind fst snd]; trivial.
  destruct (Viewport.View _); cbn [bind]; trivial.
Qed.

Lemma Update_running_err (m : model) (msg : Msg) :
  match Update m msg with
  | Ret (m', c) => is_Quit c = false -> err m' = err m
  | Panic _ => True
  end.
Proof.
  pose proof (Update_err m msg) as H.
  destruct msg as [e | ms | ms | key | | w h | ];
    try (destruct (Update m _) as [[m' c] | r]; [intros _; exact H | exact I]).
  simpl. discriminate.
Qed.

Lemma Start_running_err (events : list Msg) :
  forall m shown m1 shown1,
  Start m events shown = Ret (m1, shown1, false) -> err m1 = err m.
Proof.
  induction events as [ | msg events IH]; intros m shown m1 shown1; simpl.
  - intros H. now injection H as ->.
  - pose proof (Update_running_err m msg) as Hu.
    destruct (Update m msg) as [[m2 c] | r]; simpl; [ | discriminate].
    destruct (is_Quit c) eqn:Hq; [discriminate | ].
    pose proof (View_err m2) as Hv.
    destruct (View m2) as [[s m3] | r]; simpl; [ | discriminate].
    intros H. apply IH in H. rewrite H, Hv. now apply Hu.
Qed.

(** X13: when the session has run without a quit so far, a ctrl+c or q
    key ends it, whatever else is pending and also while an update is
    under way, and [main] exits with status 0 and prints nothing: no
    error is stored unless an error message was processed. *)
Theorem quit_key_exits_with_status_0 (profile : Termenv.Profile)
  (pre rest : list Msg) (key : string) (m : model) (shown : list string) :
  Start (newModel profile) pre [] = Ret (m, shown, false) ->
  key_is key ["ctrl+c"; "q"] = true ->
  main profile None (pre ++ KeyMsg key :: rest)%list = Ret (shown, ExitOk)
  /\ exit_code ExitOk = 0.
Proof.
  intros Hpre Hk. split; [ | reflexivity].
  unfold main. cbv zeta. rewrite (Start_app pre _ _ _ _ _ Hpre).
  cbn [Start]. rewrite (Update_quit m key Hk).
  cbn [bind is_Quit snd fst].
  now rewrite (Start_running_err pre _ _ _ _ Hpre).
Qed.

Lemma quit_key_exits_with_status_0_witness :
  exists shown,
    main Termenv.Plain None
      (session_update_last ++ [KeyMsg "q"; KeyMsg "enter"])%list
    = Ret (shown, ExitOk).
Proof.
  destruct (Start (newModel Termenv.Plain) session_update_last [])
    as [[[m shown] q] | r] eqn:Hs; [ | vm_compute in Hs; discriminate].
  assert (Hq : q = false) by (vm_compute in Hs; now injection Hs).
  subst q. exists shown.
  exact (proj1 (quit_key_exits_with_status_0 Termenv.Plain
                  session_update_last [KeyMsg "enter"] "q" m shown Hs
                  eq_refl)).
Defined.
